(** * transcribe_audio.py: batch transcription pipeline

    A shallow embedding of [src/transcribe_audio.py] and the properties of
    its filename derivation, recognition loop, temporary-file handling,
    retry loop and result coordinator.

    Python strings are sequences of Unicode code points; they are modelled
    as lists of code points ([N]).  The file system is a finite map from
    paths to file contents.  Everything the script obtains from outside
    (pydub/ffmpeg, the Vosk engine, [tempfile], the thread pool's completion
    order) is an explicit input of the corresponding function. *)

From Stdlib Require Import ZArith NArith List Lia Permutation Sorted.
From Stdlib Require Import Ascii String Decimal DecimalN.
From stdpp Require Import base option list gmap.

Local Open Scope N_scope.
Set Warnings "-register-all".

(** ** Python strings *)

Abbreviation pystr := (list N).

(** An ASCII literal as a Python string. *)
Definition lit (s : string) : pystr :=
  map N_of_ascii (list_ascii_of_string s).

Definition in_range (lo hi c : N) : bool := (lo <=? c) && (c <=? hi).

Definition ascii_digit (c : N) : bool := in_range 48 57 c.

(** The class [A-Za-z0-9]. *)
Definition ascii_alnum (c : N) : bool :=
  ascii_digit c || in_range 65 90 c || in_range 97 122 c.

(** The alphanumeric code points of the Latin-1 supplement (U+0080..U+00FF):
    feminine/masculine ordinal, superscript digits, micro sign, vulgar
    fractions and the accented letters. *)
Definition latin1_alnum (c : N) : bool :=
  (c =? 170) || in_range 178 179 c || (c =? 181) || in_range 185 186 c
  || in_range 188 190 c || in_range 192 214 c || in_range 216 246 c
  || in_range 248 255 c.

(** [str.isspace] for one code point. *)
Definition isspace (c : N) : bool :=
  in_range 9 13 c || in_range 28 32 c || (c =? 133) || (c =? 160)
  || (c =? 5760) || in_range 8192 8202 c || in_range 8232 8233 c
  || (c =? 8239) || (c =? 8287) || (c =? 12288).

(** [s.lstrip()], [s.rstrip()], [s.strip()]. *)
Fixpoint lstrip (s : pystr) : pystr :=
  match s with
  | c :: s' => if isspace c then lstrip s' else s
  | [] => []
  end.

Definition rstrip (s : pystr) : pystr := rev (lstrip (rev s)).

Definition strip (s : pystr) : pystr := rstrip (lstrip s).

(** [sep.join(parts)]. *)
Fixpoint join (sep : pystr) (parts : list pystr) : pystr :=
  match parts with
  | [] => []
  | [p] => p
  | p :: rest => p ++ sep ++ join sep rest
  end.

(** Truthiness of a [str]: only the empty string is falsy. *)
Definition nonempty (s : pystr) : bool :=
  match s with [] => false | _ => true end.

(** *** Integer formatting: [format(z, "02d")] *)

Fixpoint uint_chars (d : Decimal.uint) : pystr :=
  match d with
  | Nil => []
  | D0 d => 48 :: uint_chars d
  | D1 d => 49 :: uint_chars d
  | D2 d => 50 :: uint_chars d
  | D3 d => 51 :: uint_chars d
  | D4 d => 52 :: uint_chars d
  | D5 d => 53 :: uint_chars d
  | D6 d => 54 :: uint_chars d
  | D7 d => 55 :: uint_chars d
  | D8 d => 56 :: uint_chars d
  | D9 d => 57 :: uint_chars d
  end.

(** [str(n)] for a natural number. *)
Definition decimal (n : N) : pystr := uint_chars (N.to_uint n).

(** Zero padding on the left up to [width] characters. *)
Definition zfill (width : nat) (s : pystr) : pystr :=
  repeat 48 (width - length s)%nat ++ s.

(** [f"{z:02d}"]: sign-aware zero padding to a minimum width of two. *)
Definition format_02d (z : Z) : pystr :=
  match z with
  | Zneg p => 45 :: zfill 1 (decimal (Npos p))
  | _ => zfill 2 (decimal (Z.to_N z))
  end.

(** *** [os.path] on POSIX *)

Definition SEP : N := 47.
Definition EXTSEP : N := 46.

Definition startswith_sep (p : pystr) : bool :=
  match p with c :: _ => c =? SEP | [] => false end.

Definition endswith_sep (p : pystr) : bool :=
  match last p with Some c => c =? SEP | None => false end.

(** [os.path.join(a, b)] for two components. *)
Definition path_join (a b : pystr) : pystr :=
  if startswith_sep b then b
  else if negb (nonempty a) || endswith_sep a then a ++ b
  else a ++ SEP :: b.

(** The part of [p] after its last separator. *)
Fixpoint basename (p : pystr) : pystr :=
  match p with
  | [] => []
  | c :: p' => if existsb (N.eqb SEP) p' then basename p'
               else if c =? SEP then p' else p
  end.

(** The suffix of [s] from its last [EXTSEP] on, when it has one. *)
Fixpoint from_last_dot (s : pystr) : option pystr :=
  match s with
  | [] => None
  | c :: s' =>
      match from_last_dot s' with
      | Some e => Some e
      | None => if c =? EXTSEP then Some s else None
      end
  end.

(** [os.path.splitext(p)[1]]: the extension starts at the last dot of the
    base name, unless only dots precede it there. *)
Definition splitext_ext (p : pystr) : pystr :=
  let b := basename p in
  match from_last_dot b with
  | None => []
  | Some e =>
      let stem := take (length b - length e) b in
      if forallb (N.eqb EXTSEP) stem then [] else e
  end.

(** ** Filename derivation (process_audio_file, lines 90-91) *)

Section Filename.

(** [str.isalnum] above Latin-1 is the Unicode character database's; it is
    an input of the development. *)
Variable unicode_alnum : N -> bool.

(** [c.isalnum()]. *)
Definition isalnum (c : N) : bool :=
  if c <? 128 then ascii_alnum c
  else if c <? 256 then latin1_alnum c
  else unicode_alnum c.

(** [c in ' -_.'] *)
Definition in_punct (c : N) : bool :=
  (c =? 32) || (c =? 45) || (c =? 95) || (c =? 46).

(** [c if c.isalnum() or c in ' -_.' else '_'] *)
Definition sanitize_char (c : N) : N :=
  if isalnum c || in_punct c then c else 95.

(** The character replacement applied to a whole string. *)
Definition sanitize (s : pystr) : pystr := map sanitize_char s.

(** [safe_name]: the replacement over [transcription[:50]]. *)
Definition safe_name (transcription : pystr) : pystr :=
  sanitize (take 50 transcription).

(** [new_name], for the integer [i] that [idx[0]] evaluates to. *)
Definition new_name (i : Z) (transcription audio_file : pystr) : pystr :=
  format_02d (i + 1) ++ lit " - " ++ safe_name transcription
    ++ splitext_ext audio_file.

End Filename.

(** The class the specification names: [A-Za-z0-9], space, hyphen,
    underscore, period. *)
Definition ascii_filename_char (c : N) : bool := ascii_alnum c || in_punct c.

(** ** Python values reaching [process_audio_file] as [idx] *)

Inductive exn : Type :=
  | TypeError
  | IndexError.

Inductive pyobj : Type :=
  | PyInt (z : Z)
  | PyStr (s : pystr)
  | PyTuple (items : list pyobj).

(** [o[k]] for a non-negative constant [k]. *)
Definition getitem (o : pyobj) (k : nat) : exn + pyobj :=
  match o with
  | PyInt _ => inl TypeError
  | PyStr s => match s !! k with Some c => inr (PyStr [c]) | None => inl IndexError end
  | PyTuple items => match items !! k with Some v => inr v | None => inl IndexError end
  end.

(** [o + 1]. *)
Definition add_one (o : pyobj) : exn + Z :=
  match o with
  | PyInt z => inr (z + 1)%Z
  | _ => inl TypeError
  end.

(** ** Files *)

(** What [wave.open] finds in a RIFF/WAVE PCM file.  A frame holds one
    sample per channel; it is kept as a single integer. *)
Record wav_file : Type := {
  nchannels : Z;
  sampwidth : Z;
  framerate : Z;
  frames : list Z
}.

Inductive file_content : Type :=
  | RawData                          (* anything [wave.open] rejects *)
  | Wave (w : wav_file)
  | Text (writes : list pystr).

Abbreviation filesystem := (gmap pystr file_content).

(** The chunks successive [wf.readframes(n)] calls return before the first
    empty one. *)
Fixpoint readframes_loop (fuel n : nat) (remaining : list Z) : list (list Z) :=
  match fuel with
  | O => []
  | S fuel' =>
      match take n remaining with
      | [] => []
      | chunk => chunk :: readframes_loop fuel' n (drop n remaining)
      end
  end.

Definition readframes_all (n : nat) (fr : list Z) : list (list Z) :=
  readframes_loop (length fr) n fr.

(** Frames per [readframes] call (line 60). *)
Definition CHUNK_FRAMES : nat := N.to_nat 8000.

(** Sample rate the recognizer is created with (line 51). *)
Definition SAMPLE_RATE : Z := 16000.

(** ** The recognition engine *)

(** The Vosk calls the script makes.  [KaldiRecognizer] and
    [AcceptWaveform] raise on an engine error ([None]).  [Result] and
    [FinalResult] return a JSON document; it is represented by the value of
    its ["text"] member after [json.loads], absent or a string. *)
Class Recognizer (Model rec_state : Type) : Type := {
  KaldiRecognizer : Model -> Z -> option rec_state;
  SetWords : rec_state -> bool -> rec_state;
  AcceptWaveform : rec_state -> list Z -> option (rec_state * bool);
  Result : rec_state -> rec_state * option pystr;
  FinalResult : rec_state -> rec_state * option pystr
}.

(** Calls made on a recognizer, in order, with what they returned. *)
Inductive engine_event : Type :=
  | EvAccept (chunk : list Z) (boundary : bool)
  | EvResult (doc : option pystr)
  | EvFinalResult (doc : option pystr).

Abbreviation trace := (list engine_event).

(** [doc.get('text', '').strip()] *)
Definition text_of (doc : option pystr) : pystr := strip (default [] doc).

(** [results.append(text)] guarded by the truthiness of [text]. *)
Definition append_if_nonempty (results : list pystr) (text : pystr) : list pystr :=
  if nonempty text then results ++ [text] else results.

(** What one temporary-file/conversion attempt gets from outside. *)
Record attempt_world : Type := {
  mkstemp_path : option pystr;          (* [None]: [tempfile.mkstemp] raises *)
  pydub_output : option file_content;   (* [None]: decoding or export raises *)
  remove_fails : bool                   (* [os.remove] raises [OSError] *)
}.

Record task_result : Type := {
  res_idx : Z;
  res_orig : pystr;
  res_new : option pystr;
  res_text : option pystr
}.

Section Pipeline.

Context {Model rec_state : Type} `{!Recognizer Model rec_state}.
Variable unicode_alnum : N -> bool.


(** The [while chunk := wf.readframes(8000)] loop (lines 60-63) over the
    chunks read.  [None]: [AcceptWaveform] raised. *)
Fixpoint feed_chunks (chunks : list (list Z)) (rec : rec_state)
    (results : list pystr) : trace * option (rec_state * list pystr) :=
  match chunks with
  | [] => ([], Some (rec, results))
  | chunk :: rest =>
      match AcceptWaveform rec chunk with
      | None => ([], None)
      | Some (rec1, true) =>
          let '(rec2, doc) := Result rec1 in
          let '(tr, r) := feed_chunks rest rec2 (append_if_nonempty results (text_of doc)) in
          (EvAccept chunk true :: EvResult doc :: tr, r)
      | Some (rec1, false) =>
          let '(tr, r) := feed_chunks rest rec1 results in
          (EvAccept chunk false :: tr, r)
      end
  end.

(** Lines 51-68 of [transcribe_audio], on the content of the temporary file.
    [None] is the value returned on the two [return None] paths and from the
    [except] clause. *)
Definition recognize (model : Model) (content : file_content) : trace * option pystr :=
  match KaldiRecognizer model SAMPLE_RATE with
  | None => ([], None)
  | Some rec0 =>
      let rec := SetWords rec0 true in
      match content with
      | Wave wf =>
          if negb (nchannels wf =? 1)%Z || negb (sampwidth wf =? 2)%Z then ([], None)
          else
            match feed_chunks (readframes_all CHUNK_FRAMES (frames wf)) rec [] with
            | (tr, None) => (tr, None)
            | (tr, Some (rec1, results)) =>
                let '(_, doc) := FinalResult rec1 in
                let results := append_if_nonempty results (text_of doc) in
                (tr ++ [EvFinalResult doc], Some (strip (join (lit " ") results)))
            end
      | _ => ([], None)
      end
  end.

(** [convert_to_wav(audio_path)] with [target_path=None]. *)
Definition convert_to_wav (w : attempt_world) (audio_path : pystr)
    (fs : filesystem) : option pystr * filesystem :=
  match mkstemp_path w with
  | None => (None, fs)
  | Some target_path =>
      let fs1 := <[target_path := RawData]> fs in
      match pydub_output w with
      | None => (None, fs1)
      | Some sound => (Some target_path, <[target_path := sound]> fs1)
      end
  end.

(** The [finally] clause of [transcribe_audio]. *)
Definition cleanup (w : attempt_world) (temp_wav : option pystr)
    (fs : filesystem) : filesystem :=
  match temp_wav with
  | Some t =>
      if nonempty t && bool_decide (is_Some (fs !! t))
      then (if remove_fails w then fs else delete t fs)
      else fs
  | None => fs
  end.

(** [transcribe_audio(audio_path, model)]. *)
Definition transcribe_audio (w : attempt_world) (audio_path : pystr)
    (model : Model) (fs : filesystem) : trace * option pystr * filesystem :=
  let '(temp_wav, fs1) := convert_to_wav w audio_path fs in
  let '(tr, r) :=
    match temp_wav with
    | Some t =>
        if nonempty t
        then match fs1 !! t with
             | Some content => recognize model content
             | None => ([], None)
             end
        else ([], None)
    | None => ([], None)
    end in
  (tr, r, cleanup w temp_wav fs1).

(** Truthiness of what [transcribe_audio] returns. *)
Definition truthy (r : option pystr) : bool :=
  match r with Some s => nonempty s | None => false end.

(** The [for attempt in range(3)] loop.  Returns the early [return]'s
    transcription if any, the file system, and the result of every call of
    [transcribe_audio] made. *)
Fixpoint attempts_loop (worlds : nat -> attempt_world) (attempts : list nat)
    (audio_path : pystr) (model : Model) (fs : filesystem)
    : option pystr * filesystem * list (trace * option pystr) :=
  match attempts with
  | [] => (None, fs, [])
  | attempt :: rest =>
      let '(tr, r, fs1) := transcribe_audio (worlds attempt) audio_path model fs in
      if truthy r then (r, fs1, [(tr, r)])
      else
        let '(out, fs2, log) := attempts_loop worlds rest audio_path model fs1 in
        (out, fs2, (tr, r) :: log)
  end.

(** [process_audio_file((idx, audio_file, audio_dir, model))]. *)
Definition process_audio_file (worlds : nat -> attempt_world) (idx : pyobj)
    (audio_file audio_dir : pystr) (model : Model) (fs : filesystem)
    : (exn + task_result) * filesystem * list (trace * option pystr) :=
  let audio_path := path_join audio_dir audio_file in
  (* line 85: the f-string evaluates idx[0]+1 and idx[1] *)
  match getitem idx 0 with
  | inl e => (inl e, fs, [])
  | inr i0 =>
      match add_one i0 with
      | inl e => (inl e, fs, [])
      | inr _ =>
          match getitem idx 1 with
          | inl e => (inl e, fs, [])
          | inr _ =>
              let i := match i0 with PyInt z => z | _ => 0%Z end in
              let '(out, fs1, log) :=
                attempts_loop worlds (seq 0 3) audio_path model fs in
              match out with
              | Some transcription =>
                  (inr {| res_idx := i; res_orig := audio_file;
                          res_new := Some (new_name unicode_alnum i transcription audio_file);
                          res_text := Some transcription |}, fs1, log)
              | None =>
                  (inr {| res_idx := i; res_orig := audio_file;
                          res_new := None; res_text := None |}, fs1, log)
              end
          end
      end
  end.

End Pipeline.

(** The value one call of [transcribe_audio] returned, and the file system
    it left. *)
Definition returned (a : trace * option pystr * filesystem) : option pystr := a.1.2.
Definition fs_after (a : trace * option pystr * filesystem) : filesystem := a.2.

(** ** The coordinator ([main]) *)

(** [sorted(results, key=lambda x: x[0])]: a stable sort on the index. *)
Fixpoint insert_by_key (x : Z * pystr) (l : list (Z * pystr)) : list (Z * pystr) :=
  match l with
  | [] => [x]
  | y :: l' => if (x.1 <=? y.1)%Z then x :: y :: l' else y :: insert_by_key x l'
  end.

Definition sorted_by_key (l : list (Z * pystr)) : list (Z * pystr) :=
  foldr insert_by_key [] l.

(** Order of two buffered results by index. *)
Definition key_lt (a b : Z * pystr) : Prop := (a.1 < b.1)%Z.

(** The header line written at line 159. *)
Definition HEADER : pystr :=
  lit "this is a " ++ [34] ++ lit "Horal History Project" ++ [34]
  ++ lit " from the class " ++ [34] ++ lit "SSN103" ++ [34]
  ++ lit " class" ++ [10; 10].

(** [f"{idx+1:02d}. {transcription}"] (line 145). *)
Definition transcript_line (idx : Z) (transcription : pystr) : pystr :=
  format_02d (idx + 1) ++ lit ". " ++ transcription.

(** The lines of the loop at lines 161-162, in the order they are written. *)
Definition transcript_lines (results : list (Z * pystr)) : list pystr :=
  map snd (sorted_by_key results).

(** Everything written to the transcript file (lines 159-162). *)
Definition write_transcript (generated_on : pystr)
    (results : list (Z * pystr)) : list pystr :=
  HEADER
  :: (lit "Generated on: " ++ generated_on ++ [10; 10])
  :: map (fun line => line ++ [10; 10]) (transcript_lines results).

(** Console messages of [main]; their wording is in the source. *)
Inductive message : Type :=
  | MsgModelLoadFailed               (* "Failed to load Vosk model: ..." *)
  | MsgNoAudioFiles                  (* "No audio files found in: ..." *)
  | MsgRenamed (new_name : pystr)
  | MsgRenameFailed (orig_name : pystr)
  | MsgSaved (count : nat)
  | MsgNoTranscriptions.

(** Observable steps of [main]. *)
Inductive main_event : Type :=
  | Makedirs (dir : pystr)
  | Print (m : message)
  | Listdir (dir : pystr)
  | Submit (i : nat) (audio_file : pystr)
  | Rename (src dst : pystr) (ok : bool)
  | WriteFile (path : pystr) (writes : list pystr).

(** [os.rename(src, dst)]: [None] when it raises. *)
Definition os_rename (raises : bool) (src dst : pystr)
    (fs : filesystem) : option filesystem :=
  if raises then None
  else match fs !! src with
       | Some content => Some (<[dst := content]> (delete src fs))
       | None => None
       end.

(** The [for future in as_completed(futures)] loop (lines 142-154) over the
    outcomes of the futures in completion order.  [inl e]: [future.result()]
    re-raised [e], which leaves [main]. *)
Fixpoint collect (audio_dir : pystr) (rename_raises : pystr -> bool)
    (outs : list (exn + task_result)) (results : list (Z * pystr))
    (fs : filesystem)
    : list main_event * filesystem * (exn + list (Z * pystr)) :=
  match outs with
  | [] => ([], fs, inr results)
  | inl e :: _ => ([], fs, inl e)
  | inr r :: rest =>
      match res_text r with
      | Some transcription =>
          if nonempty transcription then
            let results1 :=
              results ++ [(res_idx r, transcript_line (res_idx r) transcription)] in
            match res_new r with
            | Some new =>
                if nonempty new then
                  let src := path_join audio_dir (res_orig r) in
                  let dst := path_join audio_dir new in
                  match os_rename (rename_raises (res_orig r)) src dst fs with
                  | Some fs1 =>
                      let '(ev, fs2, out) := collect audio_dir rename_raises rest results1 fs1 in
                      (Rename src dst true :: Print (MsgRenamed new) :: ev, fs2, out)
                  | None =>
                      let '(ev, fs2, out) := collect audio_dir rename_raises rest results1 fs in
                      (Rename src dst false :: Print (MsgRenameFailed (res_orig r)) :: ev, fs2, out)
                  end
                else collect audio_dir rename_raises rest results1 fs
            | None => collect audio_dir rename_raises rest results1 fs
            end
          else collect audio_dir rename_raises rest results fs
      | None => collect audio_dir rename_raises rest results fs
      end
  end.

(** How a run of the script ends: [main] returns, or an exception leaves
    it. *)
Record main_run : Type := {
  events : list main_event;
  final_fs : filesystem;
  uncaught : option exn
}.

(** Exit status of the interpreter: 0 when the script runs to its end, 1
    after an uncaught exception. *)
Definition exit_status (r : main_run) : Z :=
  match uncaught r with None => 0 | Some _ => 1 end.

(** What one run of [main] gets from outside. *)
Record run_world (Model : Type) : Type := {
  base_dir : pystr;
  load_model : option Model;            (* [None]: [Model(model_path)] raises *)
  audio_files : list pystr;             (* value of the comprehension, lines 112-115 *)
  timestamp : pystr;                    (* [strftime('%Y%m%d_%H%M%S')] *)
  generated_on : pystr;                 (* [strftime('%Y-%m-%d %H:%M:%S')] *)
  task_worlds : nat -> nat -> attempt_world;  (* task, attempt *)
  completion : list nat;                (* positions of the futures as [as_completed] yields them *)
  rename_raises : pystr -> bool
}.

Arguments base_dir {Model}.
Arguments load_model {Model}.
Arguments audio_files {Model}.
Arguments timestamp {Model}.
Arguments generated_on {Model}.
Arguments task_worlds {Model}.
Arguments completion {Model}.
Arguments rename_raises {Model}.

Section Coordinator.

Context {Model rec_state : Type} `{!Recognizer Model rec_state}.
Variable unicode_alnum : N -> bool.

(** The tasks submitted at lines 134-140, [(i, f, audio_dir, model)] for
    [i, f] in [enumerate(audio_files)], run one after the other. *)
Fixpoint run_tasks (worlds : nat -> nat -> attempt_world) (i : nat)
    (files : list pystr) (audio_dir : pystr) (model : Model)
    (fs : filesystem) : list (exn + task_result) * filesystem :=
  match files with
  | [] => ([], fs)
  | f :: rest =>
      let '(r, fs1, _) :=
        process_audio_file unicode_alnum (worlds i) (PyInt (Z.of_nat i))
          f audio_dir model fs in
      let '(rs, fs2) := run_tasks worlds (S i) rest audio_dir model fs1 in
      (r :: rs, fs2)
  end.

Definition submissions (files : list pystr) : list main_event :=
  imap (fun i f => Submit i f) files.

(** [main()]. *)
Definition main (w : run_world Model) (fs : filesystem) : main_run :=
  let audio_dir := path_join (base_dir w) (lit "audio") in
  match load_model w with
  | None =>
      {| events := [Makedirs audio_dir; Print MsgModelLoadFailed];
         final_fs := fs; uncaught := None |}
  | Some model =>
      match audio_files w with
      | [] =>
          {| events := [Makedirs audio_dir; Listdir audio_dir; Print MsgNoAudioFiles];
             final_fs := fs; uncaught := None |}
      | files =>
          let transcripts_dir := path_join (base_dir w) (lit "transcripts") in
          let transcript_file :=
            path_join transcripts_dir
              (lit "transcript_" ++ timestamp w ++ lit ".txt") in
          let ev0 :=
            [Makedirs audio_dir; Listdir audio_dir; Makedirs transcripts_dir]
            ++ submissions files in
          let '(outs, fs1) := run_tasks (task_worlds w) 0 files audio_dir model fs in
          let completed := omap (fun k => outs !! k) (completion w) in
          match collect audio_dir (rename_raises w) completed [] fs1 with
          | (ev, fs2, inl e) =>
              {| events := ev0 ++ ev; final_fs := fs2; uncaught := Some e |}
          | (ev, fs2, inr []) =>
              {| events := ev0 ++ ev ++ [Print MsgNoTranscriptions];
                 final_fs := fs2; uncaught := None |}
          | (ev, fs2, inr results) =>
              let writes := write_transcript (generated_on w) results in
              {| events := ev0 ++ ev ++ [WriteFile transcript_file writes;
                                         Print (MsgSaved (length results))];
                 final_fs := <[transcript_file := Text writes]> fs2;
                 uncaught := None |}
          end
      end
  end.

End Coordinator.

(** ** Reading a trace *)

(** The chunks handed to [AcceptWaveform], in order. *)
Definition fed_chunks (tr : trace) : list (list Z) :=
  omap (fun e => match e with EvAccept c _ => Some c | _ => None end) tr.

(** The number of utterance boundaries the engine signalled. *)
Definition boundaries (tr : trace) : nat :=
  length (List.filter (fun e => match e with EvAccept _ true => true | _ => false end) tr).

(** The documents obtained from [Result], in order. *)
Definition chunk_docs (tr : trace) : list (option pystr) :=
  omap (fun e => match e with EvResult d => Some d | _ => None end) tr.

(** The documents obtained from [FinalResult]. *)
Definition final_docs (tr : trace) : list (option pystr) :=
  omap (fun e => match e with EvFinalResult d => Some d | _ => None end) tr.

(** The specification's transcript of a session: the non-empty stripped
    texts of the per-chunk results in read order, then the non-empty final
    one, joined by single spaces and trimmed. *)
Definition expected_transcript (tr : trace) : pystr :=
  strip (join (lit " ")
           (List.filter nonempty (map text_of (chunk_docs tr))
            ++ List.filter nonempty (map text_of (final_docs tr)))).

(** ** The specification's streaming session

    Section 4.2 of the specification: feed each chunk to the session;
    whenever the session signals that an utterance boundary was reached,
    extract its recognized text; after the stream is exhausted, extract the
    final pending result.  [session rec tr rec'] says that [tr] is such an
    exchange with the engine, started in state [rec] and ending in state
    [rec']: every answer logged is the one the engine gives in the state it
    is in, [Result] follows each chunk that ended an utterance and only
    those. *)
Section SessionSpec.

Context {Model rec_state : Type} `{!Recognizer Model rec_state}.

Inductive session : rec_state -> trace -> rec_state -> Prop :=
  | session_end (rec : rec_state) : session rec [] rec
  | session_utterance (rec rec1 rec2 rec' : rec_state) (chunk : list Z)
      (doc : option pystr) (tr : trace) :
      AcceptWaveform rec chunk = Some (rec1, true) ->
      Result rec1 = (rec2, doc) ->
      session rec2 tr rec' ->
      session rec (EvAccept chunk true :: EvResult doc :: tr) rec'
  | session_continue (rec rec1 rec' : rec_state) (chunk : list Z) (tr : trace) :
      AcceptWaveform rec chunk = Some (rec1, false) ->
      session rec1 tr rec' ->
      session rec (EvAccept chunk false :: tr) rec'.

(** The log of a whole recognition: a session on a fresh recognizer with
    word metadata enabled, closed by the engine's final result. *)
Definition recognition_log (model : Model) (tr : trace) : Prop :=
  exists rec0 rec1 tr0,
    KaldiRecognizer model SAMPLE_RATE = Some rec0
    /\ session (SetWords rec0 true) tr0 rec1
    /\ tr = tr0 ++ [EvFinalResult (FinalResult rec1).2].

End SessionSpec.

(** ** A scripted engine for the examples

    Sessions carry no state.  A chunk ends an utterance when its first
    frame is non-zero; the text of an utterance is one letter, [a] + the
    first frame of the chunk, and the final text is [z]. *)
Definition scripted_accept (st : option Z) (chunk : list Z) : option (option Z * bool) :=
  match chunk with
  | z :: _ => if (z =? 0)%Z then Some (st, false) else Some (Some z, true)
  | [] => Some (st, false)
  end.

Definition scripted_result (st : option Z) : option Z * option pystr :=
  match st with
  | Some z => (None, Some [32; Z.to_N (97 + z)])
  | None => (None, None)
  end.

#[export] Instance scripted_engine : Recognizer unit (option Z) := {|
  KaldiRecognizer _ _ := Some None;
  SetWords st _ := st;
  AcceptWaveform := scripted_accept;
  Result := scripted_result;
  FinalResult _ := (None, Some [122; 10])
|}.

(** ** Reading the outcomes of the futures *)

(** The indices of the tasks whose futures returned. *)
Definition submitted_indices (outs : list (exn + task_result)) : list Z :=
  omap (fun o => match o with inr r => Some (res_idx r) | inl _ => None end) outs.

(** Index and transcript of the tasks that returned a non-empty transcript,
    in completion order. *)
Definition successes (outs : list (exn + task_result)) : list (Z * pystr) :=
  omap (fun o =>
          match o with
          | inr r =>
              match res_text r with
              | Some t => if nonempty t then Some (res_idx r, t) else None
              | None => None
              end
          | inl _ => None
          end) outs.

(** ** Worlds for the examples *)

(** Two complete chunks: the first ends an utterance, the second does
    not. *)
Definition two_chunks : wav_file :=
  {| nchannels := 1; sampwidth := 2; framerate := 16000;
     frames := repeat 3%Z CHUNK_FRAMES ++ repeat 0%Z CHUNK_FRAMES |}.

(** A header of one channel and two-byte samples at 44100 Hz. *)
Definition wav_44100 : wav_file :=
  {| nchannels := 1; sampwidth := 2; framerate := 44100; frames := [1; 0; 2]%Z |}.

Definition tmp_wav : pystr := lit "/tmp/tmpk3x9.wav".

(** A source file pydub cannot decode. *)
Definition corrupt_world : attempt_world :=
  {| mkstemp_path := Some tmp_wav; pydub_output := None; remove_fails := false |}.

Definition speech : wav_file :=
  {| nchannels := 1; sampwidth := 2; framerate := 16000; frames := [7; 0; 0]%Z |}.

Definition good_world : attempt_world :=
  {| mkstemp_path := Some tmp_wav; pydub_output := Some (Wave speech);
     remove_fails := false |}.

(** Two failing attempts, then success. *)
Definition flaky_worlds (attempt : nat) : attempt_world :=
  if (attempt <? 2)%nat then corrupt_world else good_world.

(** A logged call of the pipeline that the retry loop counts as failed. *)
Definition failed (a : trace * option pystr) : Prop := truthy a.2 = false.

(** The line buffered for a successful task. *)
Definition buffered (r : Z * pystr) : Z * pystr := (r.1, transcript_line r.1 r.2).

(** A task whose future returned without a transcript. *)
Definition without_transcript (r : task_result) : Prop := truthy (res_text r) = false.

(** The exception of the first future that raised, if any. *)
Definition first_raised (outs : list (exn + task_result)) : option exn :=
  head (omap (fun o => match o with inl e => Some e | inr _ => None end) outs).

(** A conversion that succeeds while [os.remove] is refused afterwards. *)
Definition locked_world : attempt_world :=
  {| mkstemp_path := Some tmp_wav; pydub_output := Some (Wave speech);
     remove_fails := true |}.

(** Three attempts on an undecodable file, each with its own temporary
    name. *)
Definition corrupt_worlds (attempt : nat) : attempt_world :=
  {| mkstemp_path := Some (lit "/tmp/tmp" ++ [48 + N.of_nat attempt] ++ lit ".wav");
     pydub_output := None; remove_fails := false |}.

(** A task that exhausted its attempts, and one that succeeded. *)
Definition exhausted_task : task_result :=
  {| res_idx := 1; res_orig := lit "b.mp3"; res_new := None; res_text := None |}.

Definition hello_task : task_result :=
  {| res_idx := 0; res_orig := lit "a.wav";
     res_new := Some (lit "01 - hello world.wav");
     res_text := Some (lit "hello world") |}.

(** Three tasks whose futures complete in the order 2, 0, 1; the task of
    index 1 exhausted its attempts. *)
Definition out_of_order : list (exn + task_result) :=
  [inr {| res_idx := 2; res_orig := lit "c.flac";
          res_new := Some (lit "03 - see.flac"); res_text := Some (lit "see") |};
   inr {| res_idx := 0; res_orig := lit "a.wav";
          res_new := Some (lit "01 - hello world.wav");
          res_text := Some (lit "hello world") |};
   inr {| res_idx := 1; res_orig := lit "b.mp3"; res_new := None; res_text := None |}].

(** A run whose model directory is missing. *)
Definition no_model_world : run_world unit :=
  {| base_dir := lit "/home/op/AudioToText";
     load_model := None;
     audio_files := [lit "a.wav"];
     timestamp := lit "20240101_120000";
     generated_on := lit "2024-01-01 12:00:00";
     task_worlds := fun _ _ => good_world;
     completion := [0%nat];
     rename_raises := fun _ => false |}.

(** The same run with the model in place. *)
Definition one_file_world : run_world unit :=
  {| base_dir := lit "/home/op/AudioToText";
     load_model := Some tt;
     audio_files := [lit "a.wav"];
     timestamp := lit "20240101_120000";
     generated_on := lit "2024-01-01 12:00:00";
     task_worlds := fun _ _ => good_world;
     completion := [0%nat];
     rename_raises := fun _ => false |}.

(** Events of [main] that enumerate, process, rename or write files. *)
Definition touches_files (e : main_event) : bool :=
  match e with
  | Listdir _ | Submit _ _ | Rename _ _ _ | WriteFile _ _ => true
  | Makedirs _ | Print _ => false
  end.

(** * Properties *)

(** ** Decimal formatting *)

Lemma uint_chars_digits (d : Decimal.uint) :
  Forall (fun c => ascii_digit c = true) (uint_chars d).
Proof. induction d; simpl; constructor; auto. Qed.

Lemma uint_chars_inj (d e : Decimal.uint) :
  uint_chars d = uint_chars e -> d = e.
Proof.
  revert e. induction d; intros [] Heq; simpl in Heq;
    try discriminate; try reflexivity;
    injection Heq as Heq; f_equal; auto.
Qed.

Lemma uint_chars_length (d : Decimal.uint) :
  length (uint_chars d) = nb_digits d.
Proof. induction d; simpl; auto. Qed.

Lemma decimal_digits (n : N) : Forall (fun c => ascii_digit c = true) (decimal n).
Proof. apply uint_chars_digits. Qed.

Lemma decimal_inj (a b : N) : decimal a = decimal b -> a = b.
Proof. intros H. apply Unsigned.to_uint_inj, uint_chars_inj, H. Qed.

Lemma decimal_nonempty (n : N) : decimal n <> [].
Proof.
  unfold decimal. destruct n as [|p]; [discriminate|].
  simpl. intros H.
  apply (DecimalPos.Unsigned.to_uint_nonnil p).
  destruct (Pos.to_uint p); try discriminate; reflexivity.
Qed.

(** [str(n)] has no leading zero, except for ["0"] itself. *)
Lemma decimal_no_leading_zero (n : N) (s : pystr) :
  decimal n = 48 :: s -> s = [].
Proof.
  unfold decimal. intros H.
  destruct (N.to_uint n) as [|d| | | | | | | | |] eqn:E; simpl in H; try discriminate.
  injection H as <-.
  assert (d = Nil \/ d <> Nil) as [->|Hd]
    by (destruct d; auto; right; discriminate); [reflexivity|exfalso].
  pose proof (Unsigned.to_of (N.to_uint n)) as Hn.
  rewrite Unsigned.of_to, E, DecimalFacts.unorm_D0 in Hn.
  pose proof (DecimalFacts.nb_digits_unorm d Hd) as Hle.
  rewrite <- Hn in Hle. simpl in Hle. lia.
Qed.

Lemma zfill_ge (w : nat) (s : pystr) : (w <= length s)%nat -> zfill w s = s.
Proof. intros H. unfold zfill. replace (w - length s)%nat with 0%nat by lia. reflexivity. Qed.

Lemma zfill2_decimal (n : N) :
  zfill 2 (decimal n) = decimal n /\ (2 <= length (decimal n))%nat
  \/ exists c, decimal n = [c] /\ zfill 2 (decimal n) = [48; c].
Proof.
  pose proof (decimal_nonempty n) as Hne.
  destruct (decimal n) as [|c [|c' s]] eqn:E; [congruence | right | left].
  - exists c. split; reflexivity.
  - split; [apply zfill_ge|]; simpl; lia.
Qed.

Lemma zfill2_decimal_inj (a b : N) :
  zfill 2 (decimal a) = zfill 2 (decimal b) -> a = b.
Proof.
  intros H. apply decimal_inj.
  destruct (zfill2_decimal a) as [[Ea La]|[ca [Ea Fa]]],
           (zfill2_decimal b) as [[Eb Lb]|[cb [Eb Fb]]].
  - congruence.
  - rewrite Ea, Fb in H. apply decimal_no_leading_zero in H. discriminate.
  - rewrite Fa, Eb in H. symmetry in H.
    apply decimal_no_leading_zero in H. discriminate.
  - rewrite Fa, Fb in H. congruence.
Qed.

Lemma zfill_digits (w : nat) (s : pystr) :
  Forall (fun c => ascii_digit c = true) s ->
  Forall (fun c => ascii_digit c = true) (zfill w s).
Proof.
  intros H. unfold zfill. apply Forall_app. split; [|exact H].
  induction (w - length s)%nat; simpl; constructor; auto.
Qed.

(** A run of digits closed by a non-digit is determined by the whole
    string. *)
Lemma digit_run_unique (l1 l2 r1 r2 : pystr) (x y : N) :
  Forall (fun c => ascii_digit c = true) l1 ->
  Forall (fun c => ascii_digit c = true) l2 ->
  ascii_digit x = false -> ascii_digit y = false ->
  l1 ++ x :: r1 = l2 ++ y :: r2 -> l1 = l2.
Proof.
  intros H1. revert l2. induction H1 as [|a l1 Ha _ IH]; intros l2 H2 Hx Hy Heq.
  - destruct H2 as [|b l2 Hb _]; [reflexivity|].
    simpl in Heq. injection Heq as -> _. congruence.
  - destruct H2 as [|b l2 Hb H2].
    + simpl in Heq. injection Heq as -> _. congruence.
    + simpl in Heq. injection Heq as -> Heq. f_equal. eauto.
Qed.

Lemma zfill2_decimal_head (n : N) :
  exists c s, zfill 2 (decimal n) = c :: s /\ ascii_digit c = true.
Proof.
  pose proof (zfill_digits 2 _ (decimal_digits n)) as Hd.
  destruct (zfill2_decimal n) as [[E L]|[c [E F]]].
  - rewrite E in *. destruct (decimal n) as [|c s]; [simpl in L; lia|].
    inversion Hd; subst. eauto.
  - rewrite F. eauto.
Qed.

Lemma format_02d_nonneg (z : Z) :
  (0 <= z)%Z -> format_02d z = zfill 2 (decimal (Z.to_N z)).
Proof. destruct z; [reflexivity | reflexivity | lia]. Qed.

Lemma format_02d_neg (p : positive) :
  format_02d (Zneg p) = 45 :: decimal (Npos p).
Proof.
  simpl. f_equal. apply zfill_ge.
  pose proof (decimal_nonempty (Npos p)).
  destruct (decimal (Npos p)); [congruence | simpl; lia].
Qed.

(** The formatted index starts with a digit or a minus sign. *)
Lemma format_02d_head (z : Z) :
  exists c s, format_02d z = c :: s /\ (ascii_digit c = true \/ c = 45)
              /\ Forall (fun c => ascii_digit c = true) s.
Proof.
  destruct (Z_lt_le_dec z 0) as [Hneg|Hpos].
  - destruct z as [| |p]; try lia. rewrite format_02d_neg.
    exists 45, (decimal (Npos p)). split; [reflexivity|]. split; [by right|].
    apply decimal_digits.
  - rewrite format_02d_nonneg by done.
    pose proof (zfill_digits 2 _ (decimal_digits (Z.to_N z))) as Hd.
    destruct (zfill2_decimal (Z.to_N z)) as [[E L]|[c [E F]]].
    + rewrite E in *. destruct (decimal (Z.to_N z)) as [|c s]; [simpl in L; lia|].
      inversion Hd; subst. exists c, s. auto.
    + rewrite F in *. inversion Hd; subst. exists 48, [c]. auto.
Qed.

(** [format(z, "02d")] followed by a non-digit determines [z]. *)
Lemma format_02d_prefix_inj (a b : Z) (x y : N) (r1 r2 : pystr) :
  ascii_digit x = false -> ascii_digit y = false ->
  format_02d a ++ x :: r1 = format_02d b ++ y :: r2 -> a = b.
Proof.
  intros Hx Hy Heq.
  destruct (Z_lt_le_dec a 0) as [Ha|Ha], (Z_lt_le_dec b 0) as [Hb|Hb].
  - destruct a as [| |p]; try lia. destruct b as [| |q]; try lia.
    rewrite !format_02d_neg in Heq. simpl in Heq. injection Heq as Heq.
    apply digit_run_unique in Heq; auto using decimal_digits.
    apply decimal_inj in Heq. congruence.
  - exfalso. destruct a as [| |p]; try lia.
    rewrite format_02d_neg, (format_02d_nonneg b Hb) in Heq.
    destruct (zfill2_decimal_head (Z.to_N b)) as (c & s & E & Hc).
    rewrite E in Heq. simpl in Heq. injection Heq as <- _. discriminate.
  - exfalso. destruct b as [| |q]; try lia.
    rewrite format_02d_neg, (format_02d_nonneg a Ha) in Heq.
    destruct (zfill2_decimal_head (Z.to_N a)) as (c & s & E & Hc).
    rewrite E in Heq. simpl in Heq. injection Heq as -> _. discriminate.
  - rewrite (format_02d_nonneg a Ha), (format_02d_nonneg b Hb) in Heq.
    apply digit_run_unique in Heq; auto using zfill_digits, decimal_digits.
    apply zfill2_decimal_inj in Heq. lia.
Qed.

Example format_02d_examples :
  map format_02d [-10; -1; 0; 1; 9; 10; 99; 100]%Z
  = map lit ["-10"; "-1"; "00"; "01"; "09"; "10"; "99"; "100"]%string.
Proof. reflexivity. Qed.

Example splitext_examples :
  map splitext_ext (map lit ["a.wav"; ".bashrc"; "..a"; "a.b.c"; "a"; "a.";
                             "/x.y/z"; "..."; "x/.a.b"; "a.."]%string)
  = [lit ".wav"; []; []; lit ".c"; []; lit "."; []; []; lit ".b"; lit "."].
Proof. reflexivity. Qed.

Example path_join_examples :
  [path_join (lit "d") (lit "f"); path_join (lit "d/") (lit "f");
   path_join [] (lit "f"); path_join (lit "d") (lit "/f")]
  = map lit ["d/f"; "d/f"; "f"; "/f"]%string.
Proof. reflexivity. Qed.

Lemma path_join_inj (d a b : pystr) :
  startswith_sep a = false -> startswith_sep b = false ->
  path_join d a = path_join d b -> a = b.
Proof.
  unfold path_join. intros -> ->.
  destruct (negb (nonempty d) || endswith_sep d); intros H.
  - by apply app_inv_head in H.
  - apply app_inv_head in H. congruence.
Qed.

(** ** Filename derivation *)

Section FilenameFacts.

Variable unicode_alnum : N -> bool.

Abbreviation allowed c := (isalnum unicode_alnum c || in_punct c).

Lemma sanitize_char_allowed (c : N) :
  allowed (sanitize_char unicode_alnum c) = true.
Proof.
  unfold sanitize_char. destruct (allowed c) eqn:E; [exact E|].
  apply orb_true_r.
Qed.

Lemma sanitize_char_fixed (c : N) :
  allowed c = true -> sanitize_char unicode_alnum c = c.
Proof. unfold sanitize_char. by intros ->. Qed.

Lemma sanitize_char_idem (c : N) :
  sanitize_char unicode_alnum (sanitize_char unicode_alnum c)
  = sanitize_char unicode_alnum c.
Proof. apply sanitize_char_fixed, sanitize_char_allowed. Qed.

Lemma sanitize_length (s : pystr) : length (sanitize unicode_alnum s) = length s.
Proof. apply length_map. Qed.

Lemma safe_name_length (t : pystr) :
  length (safe_name unicode_alnum t) = (length t `min` 50)%nat.
Proof. unfold safe_name. rewrite sanitize_length, length_take. lia. Qed.

(** On ASCII input [str.isalnum] is the class [A-Za-z0-9]. *)
Lemma isalnum_ascii (c : N) : c < 128 -> isalnum unicode_alnum c = ascii_alnum c.
Proof. intros H. unfold isalnum. apply N.ltb_lt in H. by rewrite H. Qed.

(** For an ASCII transcript the derived suffix stays within
    [A-Za-z0-9 -_.]. *)
Lemma safe_name_ascii (t : pystr) :
  Forall (fun c => c < 128) t ->
  Forall (fun c => ascii_filename_char c = true) (safe_name unicode_alnum t).
Proof.
  intros Ht. unfold safe_name, sanitize.
  apply Forall_map. apply (Forall_take _ 50%nat) in Ht.
  eapply Forall_impl; [exact Ht|]. intros c Hc. simpl. unfold sanitize_char, ascii_filename_char.
  rewrite (isalnum_ascii c Hc). by destruct (ascii_alnum c || in_punct c) eqn:E.
Qed.

(** C6 (amended): every character of [safe_name] is alphanumeric in the
    sense of [str.isalnum] (which holds of letters and digits outside ASCII
    too) or one of space, hyphen, underscore, period; the suffix has one
    character per character of [transcription[:50]], the character itself
    when it is in that class and an underscore otherwise. *)
Theorem safe_name_chars (t : pystr) :
  Forall (fun c => allowed c = true) (safe_name unicode_alnum t)
  /\ length (safe_name unicode_alnum t) = (length t `min` 50)%nat
  /\ forall k : nat,
       safe_name unicode_alnum t !! k
       = (fun c => if allowed c then c else 95) <$> (take 50 t !! k).
Proof.
  split; [|split].
  - unfold safe_name, sanitize. apply Forall_map, Forall_true.
    intros c. apply sanitize_char_allowed.
  - apply safe_name_length.
  - intros k. unfold safe_name, sanitize. by rewrite list_lookup_fmap.
Qed.

(** C9: the character replacement is idempotent, on whole strings and as
    used for [safe_name]. *)
Theorem sanitize_idempotent (s : pystr) :
  sanitize unicode_alnum (sanitize unicode_alnum s) = sanitize unicode_alnum s
  /\ safe_name unicode_alnum (safe_name unicode_alnum s) = safe_name unicode_alnum s.
Proof.
  assert (Hidem : forall l, sanitize unicode_alnum (sanitize unicode_alnum l)
                            = sanitize unicode_alnum l).
  { intros l. unfold sanitize. rewrite map_map. apply map_ext.
    intros c. apply sanitize_char_idem. }
  split; [apply Hidem|].
  unfold safe_name at 1. rewrite take_ge.
  - unfold safe_name. apply Hidem.
  - rewrite safe_name_length. lia.
Qed.

Lemma new_name_unfold (i : Z) (t f : pystr) :
  new_name unicode_alnum i t f
  = format_02d (i + 1) ++ 32 :: (45 :: 32 :: safe_name unicode_alnum t ++ splitext_ext f).
Proof. reflexivity. Qed.

Lemma new_name_not_absolute (i : Z) (t f : pystr) :
  startswith_sep (new_name unicode_alnum i t f) = false.
Proof.
  rewrite new_name_unfold.
  destruct (format_02d_head (i + 1)) as (c & s & -> & [Hc| ->] & _); [|reflexivity].
  simpl. unfold SEP. destruct (N.eqb_spec c 47) as [->|]; [discriminate|done].
Qed.

(** C10: tasks with distinct indices derive distinct filenames, whatever
    the transcripts and extensions, and so distinct rename destinations
    inside the audio directory. *)
Theorem new_name_distinct (audio_dir : pystr) (i j : Z) (t1 t2 f1 f2 : pystr) :
  i <> j ->
  new_name unicode_alnum i t1 f1 <> new_name unicode_alnum j t2 f2
  /\ path_join audio_dir (new_name unicode_alnum i t1 f1)
     <> path_join audio_dir (new_name unicode_alnum j t2 f2).
Proof.
  intros Hij.
  assert (Hne : new_name unicode_alnum i t1 f1 <> new_name unicode_alnum j t2 f2).
  { rewrite !new_name_unfold. intros Heq.
    apply format_02d_prefix_inj in Heq; [lia|reflexivity|reflexivity]. }
  split; [exact Hne|].
  intros Heq. apply Hne.
  eapply path_join_inj; eauto using new_name_not_absolute.
Qed.

End FilenameFacts.

Example new_name_example :
  new_name (fun _ => false) 0 (lit "hello world") (lit "a.wav")
  = lit "01 - hello world.wav".
Proof. reflexivity. Qed.

(** C10 at indices 0 and 1 with equal transcripts and file names. *)
Lemma new_name_distinct_witness :
  (0 <> 1)%Z
  /\ new_name (fun _ => false) 0 (lit "hi") (lit "a.wav")
     <> new_name (fun _ => false) 1 (lit "hi") (lit "a.wav")
  /\ path_join (lit "audio") (new_name (fun _ => false) 0 (lit "hi") (lit "a.wav"))
     <> path_join (lit "audio") (new_name (fun _ => false) 1 (lit "hi") (lit "a.wav")).
Proof.
  split; [lia|].
  apply (new_name_distinct (fun _ => false) (lit "audio") 0 1); lia.
Defined.

(** C6 as stated fails: the transcript "café" (code points 99, 97, 102,
    233) is its own sanitized suffix whatever the character database says
    above Latin-1, and U+00E9 is not in [A-Za-z0-9 -_.]. *)
Lemma safe_name_keeps_non_ascii_letter :
  (forall tbl, safe_name tbl [99; 97; 102; 233] = [99; 97; 102; 233])
  /\ ascii_filename_char 233 = false
  /\ ~ (forall tbl t, Forall (fun c => ascii_filename_char c = true) (safe_name tbl t)).
Proof.
  split; [reflexivity|]. split; [reflexivity|].
  intros H. specialize (H (fun _ => false) [99; 97; 102; 233]).
  rewrite Forall_forall in H. specialize (H 233).
  assert (Hin : In 233 (safe_name (fun _ => false) [99; 97; 102; 233])).
  { simpl. auto. }
  apply list_elem_of_In in Hin. specialize (H Hin). discriminate.
Qed.

(** ** Reading the canonical audio in chunks *)

Lemma readframes_loop_nil (fuel n : nat) : readframes_loop fuel n [] = [].
Proof. destruct fuel; simpl; [reflexivity|]. by rewrite take_nil. Qed.

Lemma readframes_loop_cons (fuel n : nat) (fr : list Z) :
  (0 < n)%nat -> fr <> [] ->
  readframes_loop (S fuel) n fr = take n fr :: readframes_loop fuel n (drop n fr).
Proof.
  intros Hn Hfr. simpl.
  destruct (take n fr) eqn:E; [|reflexivity].
  exfalso. apply (f_equal length) in E. rewrite length_take in E. simpl in E.
  destruct fr; [congruence|simpl in E; lia].
Qed.

(** With enough fuel the chunks read are the whole frame sequence. *)
Lemma readframes_loop_concat (n : nat) (fuel : nat) (fr : list Z) :
  (0 < n)%nat -> (length fr <= fuel)%nat ->
  concat (readframes_loop fuel n fr) = fr.
Proof.
  intros Hn. revert fr. induction fuel as [|fuel IH]; intros fr Hlen.
  - destruct fr; [reflexivity|simpl in Hlen; lia].
  - destruct fr as [|z fr]; [by rewrite readframes_loop_nil|].
    rewrite readframes_loop_cons by done.
    simpl concat. rewrite IH; [apply take_drop|].
    rewrite length_drop. simpl in *. lia.
Qed.


Lemma CHUNK_FRAMES_pos : (0 < CHUNK_FRAMES)%nat.
Proof. unfold CHUNK_FRAMES. lia. Qed.

(** ** The recognition loop *)

Lemma append_if_nonempty_filter (results : list pystr) (text : pystr) :
  append_if_nonempty results text = results ++ List.filter nonempty [text].
Proof.
  unfold append_if_nonempty. simpl.
  destruct (nonempty text); [reflexivity|by rewrite app_nil_r].
Qed.

Section RecognizerFacts.

Context {Model rec_state : Type} `{!Recognizer Model rec_state}.



(** What the loop logs is a session with the engine. *)
Lemma feed_chunks_session (chunks : list (list Z)) (rec rec1 : rec_state)
    (results res : list pystr) (tr : trace) :
  feed_chunks chunks rec results = (tr, Some (rec1, res)) ->
  session rec tr rec1.
Proof.
  revert rec results tr. induction chunks as [|chunk rest IH]; intros rec results tr.
  - simpl. intros [= <- <- _]. constructor.
  - simpl. destruct (AcceptWaveform rec chunk) as [[rec2 b]|] eqn:Ea; [|discriminate].
    destruct b.
    + destruct (Result rec2) as [rec3 doc] eqn:Er.
      destruct (feed_chunks rest rec3 _) as [tr1 r] eqn:Ef.
      intros [= <- ->].
      eapply session_utterance; eauto.
    + destruct (feed_chunks rest rec2 results) as [tr1 r] eqn:Ef.
      intros [= <- ->].
      eapply session_continue; eauto.
Qed.

(** The engine being a function of its state, the chunks fed determine the
    session. *)
Lemma session_deterministic (rec r1 r2 : rec_state) (tr1 tr2 : trace) :
  session rec tr1 r1 -> session rec tr2 r2 ->
  fed_chunks tr1 = fed_chunks tr2 -> tr1 = tr2 /\ r1 = r2.
Proof.
  intros H1. revert tr2 r2.
  induction H1 as [rec|rec rec1 rec2 rec' chunk doc tr Ha Hr _ IH
                  |rec rec1 rec' chunk tr Ha _ IH]; intros tr2 r2 H2 Hfed.
  - inversion H2; subst; [by split|discriminate|discriminate].
  - inversion H2 as [|? q1 q2 ? c d t Ha' Hr' Hs'|? q1 ? c t Ha' Hs']; subst;
      try discriminate;
      unfold fed_chunks in Hfed; simpl in Hfed; injection Hfed as -> Hfed.
    + rewrite Ha in Ha'. injection Ha' as <-.
      rewrite Hr in Hr'. injection Hr' as <- <-.
      destruct (IH _ _ Hs' Hfed) as [-> ->]. by split.
    + rewrite Ha in Ha'. discriminate.
  - inversion H2 as [|? q1 q2 ? c d t Ha' Hr' Hs'|? q1 ? c t Ha' Hs']; subst;
      try discriminate;
      unfold fed_chunks in Hfed; simpl in Hfed; injection Hfed as -> Hfed.
    + rewrite Ha in Ha'. discriminate.
    + rewrite Ha in Ha'. injection Ha' as <-.
      destruct (IH _ _ Hs' Hfed) as [-> ->]. by split.
Qed.

Lemma recognize_some_log (model : Model) (content : file_content)
    (tr : trace) (text : pystr) :
  recognize model content = (tr, Some text) -> recognition_log model tr.
Proof.
  unfold recognize, recognition_log.
  destruct (KaldiRecognizer model SAMPLE_RATE) as [rec0|]; [|discriminate].
  destruct content as [|wf|]; try discriminate.
  destruct (negb (nchannels wf =? 1)%Z || negb (sampwidth wf =? 2)%Z);
    [discriminate|].
  destruct (feed_chunks _ (SetWords rec0 true) []) as [tr0 [[rec1 res]|]] eqn:Ef;
    [|discriminate].
  destruct (FinalResult rec1) as [rec2 doc] eqn:Efin. intros [= <- _].
  exists rec0, rec1, tr0. split; [reflexivity|].
  split; [by eapply feed_chunks_session|]. by rewrite Efin.
Qed.


(** C5 (amended): a file that [wave.open] rejects, or whose header is not
    one channel of two-byte samples, yields [None] with nothing handed to
    the engine; the frame rate in the header is not looked at. *)
Theorem recognize_validates_channels_and_width (model : Model)
    (content : file_content) :
  match content with
  | Wave wf => nchannels wf <> 1%Z \/ sampwidth wf <> 2%Z
  | _ => True
  end ->
  recognize model content = ([], None)
  /\ forall (wf : wav_file) (rate : Z),
       recognize model (Wave wf)
       = recognize model (Wave {| nchannels := nchannels wf;
                                  sampwidth := sampwidth wf;
                                  framerate := rate;
                                  frames := frames wf |}).
Proof.
  intros Hbad. split; [|reflexivity].
  unfold recognize. destruct (KaldiRecognizer model SAMPLE_RATE); [|reflexivity].
  destruct content as [|wf|]; try reflexivity.
  destruct (Z.eqb_spec (nchannels wf) 1), (Z.eqb_spec (sampwidth wf) 2);
    simpl; try reflexivity.
  destruct Hbad; contradiction.
Qed.

End RecognizerFacts.



Example recognize_two_chunks :
  (recognize tt (Wave two_chunks)).2 = Some (lit "d z").
Proof. vm_compute. reflexivity. Qed.

(** C5 as stated fails: audio at 44100 Hz is streamed to the engine and a
    transcript comes back. *)
Lemma recognize_streams_other_sample_rate :
  framerate wav_44100 <> SAMPLE_RATE
  /\ recognize tt (Wave wav_44100)
     = ([EvAccept [1; 0; 2]%Z true; EvResult (Some [32; 98]);
         EvFinalResult (Some [122; 10])],
        Some (lit "b z")).
Proof. split; [discriminate|reflexivity]. Qed.

Lemma recognize_validates_channels_and_width_witness :
  recognize tt (Wave {| nchannels := 2; sampwidth := 2; framerate := 16000;
                        frames := [1; 2]%Z |}) = ([], None)
  /\ forall (wf : wav_file) (rate : Z),
       recognize tt (Wave wf)
       = recognize tt (Wave {| nchannels := nchannels wf;
                               sampwidth := sampwidth wf;
                               framerate := rate;
                               frames := frames wf |}).
Proof.
  apply (recognize_validates_channels_and_width tt
           (Wave {| nchannels := 2; sampwidth := 2; framerate := 16000;
                    frames := [1; 2]%Z |})).
  left. discriminate.
Defined.

(** ** The temporary file *)

Section PipelineFacts.

Context {Model rec_state : Type} `{!Recognizer Model rec_state}.
Variable unicode_alnum : N -> bool.

(** When the conversion raises after [mkstemp], [convert_to_wav] returns
    [None]; [transcribe_audio] then has no name to remove, and the file
    [mkstemp] created stays. *)
Lemma transcribe_audio_failed_conversion (w : attempt_world) (p : pystr)
    (model : Model) (fs : filesystem) (t : pystr) :
  mkstemp_path w = Some t -> pydub_output w = None ->
  transcribe_audio w p model fs = ([], None, <[t := RawData]> fs).
Proof.
  intros Hm Hp. unfold transcribe_audio, convert_to_wav. by rewrite Hm, Hp.
Qed.

(** After a conversion that succeeded, the [finally] clause removes the
    temporary file whatever the recognizer did, unless [os.remove] itself
    raises; other files are untouched. *)
Lemma transcribe_audio_removes_temp (w : attempt_world) (p : pystr)
    (model : Model) (fs : filesystem) (t : pystr) (sound : file_content) :
  mkstemp_path w = Some t -> t <> [] -> pydub_output w = Some sound ->
  remove_fails w = false ->
  (transcribe_audio w p model fs).2 = delete t fs.
Proof.
  intros Hm Ht Hp Hr. unfold transcribe_audio, convert_to_wav.
  rewrite Hm, Hp. destruct t as [|c t]; [done|]. simpl nonempty. cbv iota.
  rewrite lookup_insert_eq.
  destruct (recognize model sound) as [tr r]. simpl.
  rewrite lookup_insert_eq. rewrite bool_decide_eq_true_2 by eauto.
  rewrite Hr. rewrite !delete_insert_eq. reflexivity.
Qed.

(** ** The per-file task *)

(** C1 (the code at the input [main] submits): with an [int] as [idx],
    line 85 evaluates [idx[0]] and the call raises [TypeError] before any
    attempt is made. *)
Theorem process_audio_file_int_index_raises (worlds : nat -> attempt_world)
    (i : Z) (audio_file audio_dir : pystr) (model : Model) (fs : filesystem) :
  process_audio_file unicode_alnum worlds (PyInt i) audio_file audio_dir model fs
  = (inl TypeError, fs, []).
Proof. reflexivity. Qed.

Lemma attempts_loop_length (worlds : nat -> attempt_world) (attempts : list nat)
    (p : pystr) (model : Model) (fs : filesystem) :
  (length (attempts_loop worlds attempts p model fs).2 <= length attempts)%nat.
Proof.
  revert fs. induction attempts as [|a rest IH]; intros fs; simpl; [lia|].
  destruct (transcribe_audio (worlds a) p model fs) as [[tr r] fs1].
  destruct (truthy r); simpl; [lia|].
  specialize (IH fs1).
  destruct (attempts_loop worlds rest p model fs1) as [[out fs2] log].
  simpl in *. lia.
Qed.

Lemma process_audio_file_attempts_le (worlds : nat -> attempt_world)
    (idx : pyobj) (f d : pystr) (model : Model) (fs : filesystem) :
  (length (process_audio_file unicode_alnum worlds idx f d model fs).2 <= 3)%nat.
Proof.
  unfold process_audio_file.
  destruct (getitem idx 0) as [e|i0]; [simpl; lia|].
  destruct (add_one i0) as [e|n]; [simpl; lia|].
  destruct (getitem idx 1) as [e|t]; [simpl; lia|].
  pose proof (attempts_loop_length worlds (seq 0 3) (path_join d f) model fs) as Hle.
  destruct (attempts_loop worlds (seq 0 3) (path_join d f) model fs) as [[out fs1] log].
  destruct out; simpl in *; lia.
Qed.

(** With [idx] a sequence [(i, total, ...)], as the body subscripts it, the
    call returns a result for index [i] and the original name, whose
    derived filename and transcript are both present or both [None]. *)
Lemma process_audio_file_returns (worlds : nat -> attempt_world) (i : Z)
    (total : pyobj) (more : list pyobj) (f d : pystr) (model : Model)
    (fs : filesystem) :
  exists r,
    (process_audio_file unicode_alnum worlds (PyTuple (PyInt i :: total :: more))
       f d model fs).1.1 = inr r
    /\ res_idx r = i /\ res_orig r = f
    /\ (res_new r = None <-> res_text r = None).
Proof.
  unfold process_audio_file. simpl getitem. simpl add_one. cbv iota.
  destruct (attempts_loop worlds (seq 0 3) (path_join d f) model fs)
    as [[[text|] fs1] log]; simpl; eexists; (split; [reflexivity|]);
    simpl; repeat split; congruence.
Qed.

(** The retry loop: whatever [idx] is, the task calls the pipeline at most
    three times; for [idx] a sequence [(i, total, ...)], when the first two calls
    fail (return [None] or the empty string) and the third succeeds, it
    makes exactly these three calls and returns the third call's
    transcript with the filename derived from it; when all three fail it
    makes exactly three calls and returns [None] for both the transcript
    and the derived filename. *)
Theorem retry_policy (worlds : nat -> attempt_world) (idx : pyobj) (i : Z)
    (total : pyobj) (more : list pyobj) (f d : pystr) (model : Model)
    (fs : filesystem) :
  let p := path_join d f in
  let a1 := transcribe_audio (worlds 0%nat) p model fs in
  let a2 := transcribe_audio (worlds 1%nat) p model (fs_after a1) in
  let a3 := transcribe_audio (worlds 2%nat) p model (fs_after a2) in
  let run := process_audio_file unicode_alnum worlds
               (PyTuple (PyInt i :: total :: more)) f d model fs in
  (length (process_audio_file unicode_alnum worlds idx f d model fs).2 <= 3)%nat
  /\ (truthy (returned a1) = false -> truthy (returned a2) = false ->
      truthy (returned a3) = true ->
      run.2 = [a1.1; a2.1; a3.1]
      /\ exists text,
           returned a3 = Some text
           /\ run.1.1 = inr {| res_idx := i; res_orig := f;
                               res_new := Some (new_name unicode_alnum i text f);
                               res_text := Some text |})
  /\ (truthy (returned a1) = false -> truthy (returned a2) = false ->
      truthy (returned a3) = false ->
      run.2 = [a1.1; a2.1; a3.1]
      /\ run.1.1 = inr {| res_idx := i; res_orig := f;
                          res_new := None; res_text := None |}).
Proof.
  intros p a1 a2 a3 run.
  split; [apply process_audio_file_attempts_le|].
  subst run. unfold process_audio_file. simpl getitem. simpl add_one. cbv iota.
  fold p. simpl seq. simpl attempts_loop.
  fold a1. destruct a1 as [[tr1 r1] fs1] eqn:E1.
  unfold fs_after in a2. simpl in a2.
  fold a2. destruct a2 as [[tr2 r2] fs2] eqn:E2.
  unfold fs_after in a3. simpl in a3.
  fold a3. destruct a3 as [[tr3 r3] fs3] eqn:E3.
  unfold returned. simpl.
  split; intros -> -> H3; rewrite H3.
  - destruct r3 as [text|]; [|discriminate].
    split; [reflexivity|by exists text].
  - by split.
Qed.

End PipelineFacts.

(** C4 (the code at a source file that cannot be decoded): the temporary
    file that [mkstemp] created is still there when [transcribe_audio]
    has returned [None]. *)
Theorem transcribe_audio_leaks_temp_file :
  let fs : filesystem := {[ lit "audio/b.mp3" := RawData ]} in
  let a := transcribe_audio corrupt_world (lit "audio/b.mp3") tt fs in
  fs !! tmp_wav = None
  /\ returned a = None
  /\ fs_after a !! tmp_wav = Some RawData.
Proof.
  intros fs a. subst a.
  rewrite (transcribe_audio_failed_conversion corrupt_world _ tt fs tmp_wav)
    by reflexivity.
  split; [|split].
  - apply lookup_singleton_ne. discriminate.
  - reflexivity.
  - apply lookup_insert_eq.
Qed.

(** The same source file once decodable: nothing is left behind. *)
Example transcribe_audio_good_world :
  let fs : filesystem := {[ lit "audio/a.wav" := RawData ]} in
  let a := transcribe_audio good_world (lit "audio/a.wav") tt fs in
  returned a = Some (lit "h z") /\ fs_after a = fs.
Proof.
  intros fs a. split.
  - subst a. unfold transcribe_audio, convert_to_wav. simpl.
    rewrite lookup_insert_eq. reflexivity.
  - subst a. unfold fs_after.
    rewrite (transcribe_audio_removes_temp good_world _ tt fs tmp_wav (Wave speech))
      by done.
    apply delete_id, lookup_singleton_ne. discriminate.
Qed.

Lemma retry_policy_witness :
  let run := process_audio_file (fun _ => false) flaky_worlds
               (PyTuple [PyInt 0; PyInt 3]) (lit "a.wav") (lit "audio") tt ∅ in
  length run.2 = 3%nat
  /\ run.1.1 = inr {| res_idx := 0; res_orig := lit "a.wav";
                      res_new := Some (lit "01 - h z.wav");
                      res_text := Some (lit "h z") |}.
Proof.
  intros run.
  pose proof (retry_policy (fun _ => false) flaky_worlds (PyInt 0) 0 (PyInt 3) []
                (lit "a.wav") (lit "audio") tt ∅) as H.
  cbv zeta in H. destruct H as (_ & H & _).
  assert (E1 : transcribe_audio (flaky_worlds 0) (path_join (lit "audio") (lit "a.wav")) tt ∅
               = ([], None, <[tmp_wav := RawData]> ∅))
    by (by apply transcribe_audio_failed_conversion).
  rewrite E1 in H. unfold fs_after in H. cbn [snd] in H.
  assert (E2 : transcribe_audio (flaky_worlds 1) (path_join (lit "audio") (lit "a.wav")) tt
                 (<[tmp_wav := RawData]> ∅)
               = ([], None, <[tmp_wav := RawData]> (<[tmp_wav := RawData]> ∅)))
    by (by apply transcribe_audio_failed_conversion).
  rewrite E2 in H. cbn [snd] in H.
  assert (E3 : returned (transcribe_audio (flaky_worlds 2)
                 (path_join (lit "audio") (lit "a.wav")) tt
                 (<[tmp_wav := RawData]> (<[tmp_wav := RawData]> ∅)))
               = Some (lit "h z")).
  { unfold transcribe_audio, convert_to_wav. simpl.
    rewrite lookup_insert_eq. reflexivity. }
  destruct H as [Hlog (text & Ht & Hrun)]; [reflexivity | reflexivity | by rewrite E3 |].
  rewrite E3 in Ht. injection Ht as <-.
  subst run. rewrite Hlog, Hrun. split; reflexivity.
Defined.

(** C2 (the code at the index [main] submits): for a file on which the
    first two calls of the pipeline would fail and the third would return
    a transcript, the task called with the [int] index of [enumerate]
    makes no call of the pipeline at all and raises [TypeError]: there is
    no third attempt and no result to return. *)
Theorem retry_loop_not_reached :
  let p := path_join (lit "audio") (lit "a.wav") in
  let a1 := transcribe_audio (flaky_worlds 0) p tt ∅ in
  let a2 := transcribe_audio (flaky_worlds 1) p tt (fs_after a1) in
  let a3 := transcribe_audio (flaky_worlds 2) p tt (fs_after a2) in
  let run := process_audio_file (fun _ => false) flaky_worlds (PyInt 0)
               (lit "a.wav") (lit "audio") tt ∅ in
  truthy (returned a1) = false
  /\ truthy (returned a2) = false
  /\ returned a3 = Some (lit "h z")
  /\ run.2 = []
  /\ run.1.1 = inl TypeError.
Proof.
  intros p a1 a2 a3 run.
  assert (E1 : a1 = ([], None, <[tmp_wav := RawData]> ∅))
    by (by apply transcribe_audio_failed_conversion).
  assert (E2 : a2 = ([], None, <[tmp_wav := RawData]> (<[tmp_wav := RawData]> ∅))).
  { subst a2. rewrite E1. by apply transcribe_audio_failed_conversion. }
  assert (E3 : returned a3 = Some (lit "h z")).
  { subst a3. rewrite E2. unfold fs_after. cbn [snd].
    unfold returned, transcribe_audio, convert_to_wav. simpl.
    rewrite lookup_insert_eq. reflexivity. }
  split; [by rewrite E1|]. split; [by rewrite E2|]. split; [exact E3|].
  split; reflexivity.
Qed.

(** ** Ordered output *)

Lemma insert_by_key_perm (x : Z * pystr) (l : list (Z * pystr)) :
  Permutation (insert_by_key x l) (x :: l).
Proof.
  induction l as [|y l IH]; simpl; [reflexivity|].
  destruct (x.1 <=? y.1)%Z; [reflexivity|].
  rewrite IH. apply perm_swap.
Qed.

Lemma sorted_by_key_perm (l : list (Z * pystr)) : Permutation (sorted_by_key l) l.
Proof.
  induction l as [|x l IH]; simpl; [reflexivity|].
  rewrite insert_by_key_perm. by apply perm_skip.
Qed.

Lemma insert_by_key_strict (x : Z * pystr) (l : list (Z * pystr)) :
  StronglySorted key_lt l -> x.1 ∉ map fst l ->
  StronglySorted key_lt (insert_by_key x l).
Proof.
  induction 1 as [|y l Hs IH Hy]; intros Hx; simpl.
  - repeat constructor.
  - apply not_elem_of_cons in Hx as [Hxy Hx].
    destruct (Z.leb_spec x.1 y.1) as [Hle|Hgt].
    + assert (Hlt : key_lt x y) by (unfold key_lt; change (y.1) with (fst y) in *; lia).
      constructor; [by constructor|].
      constructor; [exact Hlt|].
      eapply Forall_impl; [exact Hy|]. unfold key_lt in *. intros z Hz. lia.
    + constructor; [by apply IH|].
      eapply Permutation_Forall; [symmetry; apply insert_by_key_perm|].
      constructor; [unfold key_lt; lia|exact Hy].
Qed.

(** Sorting pairs with distinct indices puts the indices in strictly
    ascending order. *)
Lemma sorted_by_key_strict (l : list (Z * pystr)) :
  NoDup (map fst l) -> StronglySorted Z.lt (map fst (sorted_by_key l)).
Proof.
  intros Hnd.
  assert (Hs : StronglySorted key_lt (sorted_by_key l)).
  { induction l as [|x l IH]; simpl; [constructor|].
    simpl in Hnd. apply NoDup_cons in Hnd as [Hx Hnd].
    apply insert_by_key_strict; [by apply IH|].
    intros Hin. apply Hx.
    eapply elem_of_Permutation_proper; [|exact Hin].
    apply Permutation_map. symmetry. apply sorted_by_key_perm. }
  induction Hs as [|y s Hs IH Hy]; simpl; constructor; [exact IH|].
  apply Forall_map. exact Hy.
Qed.

(** Sorting commutes with decorating the second components. *)
Lemma sorted_by_key_decorate (g : Z * pystr -> pystr) (l : list (Z * pystr)) :
  sorted_by_key (map (fun r => (r.1, g r)) l)
  = map (fun r => (r.1, g r)) (sorted_by_key l).
Proof.
  induction l as [|x l IH]; simpl; [reflexivity|].
  rewrite IH. generalize (sorted_by_key l) as s.
  induction s as [|y s IHs]; simpl; [reflexivity|].
  destruct (x.1 <=? y.1)%Z; simpl; [reflexivity|]. by rewrite IHs.
Qed.

Lemma successes_indices_sublist (outs : list (exn + task_result)) :
  map fst (successes outs) `sublist_of` submitted_indices outs.
Proof.
  induction outs as [|[e|r] outs IH]; simpl; [constructor | exact IH |].
  unfold successes, submitted_indices. simpl.
  destruct (res_text r) as [t|]; [destruct (nonempty t)|]; simpl.
  - by apply sublist_skip.
  - by apply sublist_cons.
  - by apply sublist_cons.
Qed.

(** What the collection loop has buffered when no future raised. *)
Lemma collect_results (audio_dir : pystr) (rr : pystr -> bool)
    (outs : list (exn + task_result)) (acc : list (Z * pystr))
    (fs fs' : filesystem) (ev : list main_event) (results : list (Z * pystr)) :
  collect audio_dir rr outs acc fs = (ev, fs', inr results) ->
  results = acc ++ map (fun r => (r.1, transcript_line r.1 r.2)) (successes outs).
Proof.
  revert acc fs fs' ev.
  induction outs as [|[e|r] outs IH]; intros acc fs fs' ev Hc; simpl in Hc.
  - injection Hc as _ _ <-. by rewrite app_nil_r.
  - discriminate.
  - unfold successes. simpl. fold (successes outs).
    destruct (res_text r) as [t|]; [destruct (nonempty t) eqn:Et|]; simpl.
    + assert (Hgoal : forall fs0 ev0,
                collect audio_dir rr outs
                  (acc ++ [(res_idx r, transcript_line (res_idx r) t)]) fs0
                = (ev0, fs', inr results) ->
                results = acc ++ (res_idx r, transcript_line (res_idx r) t)
                            :: map (fun r => (r.1, transcript_line r.1 r.2))
                                 (successes outs)).
      { intros fs0 ev0 H0. apply IH in H0. by rewrite <- app_assoc in H0. }
      destruct (res_new r) as [new|]; [destruct (nonempty new)|].
      * destruct (os_rename _ _ _ fs) as [fs1|].
        -- destruct (collect audio_dir rr outs _ fs1) as [[ev1 fs2] out] eqn:E.
           injection Hc as _ -> ->. eauto.
        -- destruct (collect audio_dir rr outs _ fs) as [[ev1 fs2] out] eqn:E.
           injection Hc as _ -> ->. eauto.
      * eauto.
      * eauto.
    + eauto.
    + eauto.
Qed.

(** C3: when the completed tasks carry distinct indices, in whatever order
    their futures were yielded, the lines written to the transcript file
    are those of the successful tasks, each once, in strictly ascending
    index order. *)
Theorem transcript_in_index_order (audio_dir : pystr) (rr : pystr -> bool)
    (outs : list (exn + task_result)) (fs fs' : filesystem)
    (ev : list main_event) (results : list (Z * pystr)) (now : pystr) :
  NoDup (submitted_indices outs) ->
  collect audio_dir rr outs [] fs = (ev, fs', inr results) ->
  exists rs : list (Z * pystr),
    Permutation rs (successes outs)
    /\ StronglySorted Z.lt (map fst rs)
    /\ transcript_lines results = map (fun r => transcript_line r.1 r.2) rs
    /\ write_transcript now results
       = HEADER :: (lit "Generated on: " ++ now ++ [10; 10])
           :: map (fun r => transcript_line r.1 r.2 ++ [10; 10]) rs.
Proof.
  intros Hnd Hc. apply collect_results in Hc. simpl in Hc. subst results.
  exists (sorted_by_key (successes outs)).
  assert (Hlines : transcript_lines
                     (map (fun r => (r.1, transcript_line r.1 r.2)) (successes outs))
                   = map (fun r => transcript_line r.1 r.2)
                       (sorted_by_key (successes outs))).
  { unfold transcript_lines.
    rewrite (sorted_by_key_decorate (fun r => transcript_line r.1 r.2)).
    by rewrite map_map. }
  split; [apply sorted_by_key_perm|]. split; [|split].
  - apply sorted_by_key_strict.
    apply (sublist_NoDup _ (submitted_indices outs));
      [exact Hnd|apply successes_indices_sublist].
  - exact Hlines.
  - unfold write_transcript. rewrite Hlines. by rewrite map_map.
Qed.

Lemma transcript_in_index_order_witness :
  NoDup (submitted_indices out_of_order)
  /\ exists rs : list (Z * pystr),
       Permutation rs (successes out_of_order)
       /\ StronglySorted Z.lt (map fst rs)
       /\ transcript_lines [(2%Z, lit "03. see"); (0%Z, lit "01. hello world")]
          = map (fun r => transcript_line r.1 r.2) rs
       /\ write_transcript (lit "2024-01-01 12:00:00")
            [(2%Z, lit "03. see"); (0%Z, lit "01. hello world")]
          = HEADER :: (lit "Generated on: " ++ lit "2024-01-01 12:00:00" ++ [10; 10])
              :: map (fun r => transcript_line r.1 r.2 ++ [10; 10]) rs.
Proof.
  assert (Hnd : NoDup (submitted_indices out_of_order)).
  { change (NoDup [2; 0; 1]%Z).
    repeat (apply NoDup_cons_2; [rewrite ?elem_of_cons, elem_of_nil; lia|]).
    apply NoDup_nil_2. }
  split; [exact Hnd|].
  eapply (transcript_in_index_order (lit "audio") (fun _ => true) out_of_order ∅);
    [exact Hnd|reflexivity].
Defined.

Example transcript_lines_out_of_order :
  transcript_lines [(2%Z, lit "03. see"); (0%Z, lit "01. hello world")]
  = [lit "01. hello world"; lit "03. see"].
Proof. reflexivity. Qed.

(** ** Startup *)

Section CoordinatorFacts.

Context {Model rec_state : Type} `{!Recognizer Model rec_state}.
Variable unicode_alnum : N -> bool.

(** C8 (amended): when loading the model raises, [main] reports the
    failure on the console and returns; nothing is listed, submitted,
    renamed or written, the file system is unchanged, and the script ends
    normally, with exit status 0. *)
Theorem main_model_load_failure (w : run_world Model) (fs : filesystem) :
  load_model w = None ->
  events (main unicode_alnum w fs)
  = [Makedirs (path_join (base_dir w) (lit "audio")); Print MsgModelLoadFailed]
  /\ Forall (fun e => touches_files e = false) (events (main unicode_alnum w fs))
  /\ final_fs (main unicode_alnum w fs) = fs
  /\ exit_status (main unicode_alnum w fs) = 0%Z.
Proof.
  intros Hload. unfold main, exit_status. rewrite Hload. simpl.
  repeat split; repeat constructor.
Qed.

(** Every task [main] submits raises: [enumerate] provides an [int]. *)
Lemma run_tasks_all_raise (worlds : nat -> nat -> attempt_world) (i : nat)
    (files : list pystr) (d : pystr) (model : Model) (fs : filesystem) :
  run_tasks unicode_alnum worlds i files d model fs
  = (map (fun _ => inl TypeError) files, fs).
Proof.
  revert i. induction files as [|f files IH]; intros i; simpl; [reflexivity|].
  by rewrite IH.
Qed.

(** With a model and at least one audio file, the first future yielded
    re-raises the task's [TypeError] in [main]: nothing is renamed or
    written. *)
Lemma main_raises_TypeError (w : run_world Model) (fs : filesystem)
    (model : Model) (k : nat) (rest : list nat) :
  load_model w = Some model ->
  completion w = k :: rest -> (k < length (audio_files w))%nat ->
  uncaught (main unicode_alnum w fs) = Some TypeError
  /\ final_fs (main unicode_alnum w fs) = fs
  /\ exit_status (main unicode_alnum w fs) = 1%Z.
Proof.
  intros Hload Hc Hk. unfold exit_status, main. rewrite Hload.
  destruct (audio_files w) as [|f files] eqn:Ef; [simpl in Hk; lia|].
  rewrite run_tasks_all_raise, Hc.
  assert (Hlk : map (fun _ : pystr => @inl exn task_result TypeError) (f :: files) !! k
                = Some (inl TypeError)).
  { apply lookup_lt_is_Some_2 in Hk as [x Hx].
    rewrite list_lookup_fmap, Hx. reflexivity. }
  cbn [omap list_omap]. rewrite Hlk. simpl. by repeat split.
Qed.

End CoordinatorFacts.

(** C8 as stated fails: with the model missing the script ends with exit
    status 0, like a successful run. *)
Lemma model_load_failure_exits_zero :
  load_model no_model_world = None
  /\ uncaught (main (fun _ => false) no_model_world ∅) = None
  /\ exit_status (main (fun _ => false) no_model_world ∅) = 0%Z.
Proof. repeat split. Qed.

Lemma main_model_load_failure_witness :
  events (main (fun _ => false) no_model_world ∅)
  = [Makedirs (lit "/home/op/AudioToText/audio"); Print MsgModelLoadFailed]
  /\ Forall (fun e => touches_files e = false)
       (events (main (fun _ => false) no_model_world ∅))
  /\ final_fs (main (fun _ => false) no_model_world ∅) = ∅
  /\ exit_status (main (fun _ => false) no_model_world ∅) = 0%Z.
Proof.
  apply (main_model_load_failure (fun _ => false) no_model_world ∅).
  reflexivity.
Defined.

(** The run of [main] on one decodable file: the task raises and the
    script dies with the [TypeError]. *)
Example main_one_file :
  uncaught (main (fun _ => false) one_file_world ∅) = Some TypeError
  /\ final_fs (main (fun _ => false) one_file_world ∅) = ∅
  /\ exit_status (main (fun _ => false) one_file_world ∅) = 1%Z.
Proof.
  apply (main_raises_TypeError (fun _ => false) one_file_world ∅ tt 0%nat []);
    [reflexivity | reflexivity | simpl; lia].
Qed.

(** * Further properties of the pipeline *)

(** ** [transcribe_audio] and the file system *)

Section TempFileFacts.

Context {Model rec_state : Type} `{!Recognizer Model rec_state}.

Lemma cleanup_lookup_ne (w : attempt_world) (temp_wav : option pystr)
    (fs : filesystem) (q : pystr) :
  temp_wav <> Some q -> cleanup w temp_wav fs !! q = fs !! q.
Proof.
  intros Hq. unfold cleanup. destruct temp_wav as [t|]; [|reflexivity].
  destruct (nonempty t && bool_decide (is_Some (fs !! t))); [|reflexivity].
  destruct (remove_fails w); [reflexivity|].
  apply lookup_delete_ne. congruence.
Qed.

Lemma transcribe_audio_lookup_ne (w : attempt_world) (p : pystr)
    (model : Model) (fs : filesystem) (q : pystr) :
  mkstemp_path w <> Some q ->
  fs_after (transcribe_audio w p model fs) !! q = fs !! q.
Proof.
  intros Hq. unfold fs_after, transcribe_audio, convert_to_wav.
  destruct (mkstemp_path w) as [t|] eqn:Ht.
  - assert (Hne : t <> q) by congruence.
    destruct (pydub_output w) as [sound|].
    + match goal with
      | |- context [let '(tr, r) := ?e in _] => destruct e as [tr r]
      end.
      lazy beta iota zeta delta [snd].
      rewrite cleanup_lookup_ne by congruence.
      by rewrite !lookup_insert_ne.
    + simpl. by rewrite lookup_insert_ne.
  - reflexivity.
Qed.

(** X1: whatever happens during a call, [transcribe_audio] creates,
    changes or removes no file other than the temporary one [mkstemp]
    named; in particular the source audio file is left as it was. *)
Theorem transcribe_audio_other_files (w : attempt_world) (p : pystr)
    (model : Model) (fs : filesystem) (q : pystr) :
  mkstemp_path w <> Some q ->
  fs_after (transcribe_audio w p model fs) !! q = fs !! q.
Proof. apply transcribe_audio_lookup_ne. Qed.

(** X2: when the conversion succeeded on a fresh temporary name and
    [os.remove] is not refused, the file system after the call is the one
    before it, whether the recognizer returned a transcript, rejected the
    format or raised. *)
Theorem transcribe_audio_restores_filesystem (w : attempt_world) (p : pystr)
    (model : Model) (fs : filesystem) (t : pystr) (sound : file_content) :
  mkstemp_path w = Some t -> t <> [] -> fs !! t = None ->
  pydub_output w = Some sound -> remove_fails w = false ->
  fs_after (transcribe_audio w p model fs) = fs.
Proof.
  intros Hm Ht Hfresh Hp Hr. unfold fs_after.
  rewrite (transcribe_audio_removes_temp w p model fs t sound) by done.
  by apply delete_id.
Qed.

(** X3: an [OSError] from [os.remove] is swallowed: the call still returns
    what the recognizer produced on the converted audio, and the temporary
    file stays behind with that audio in it. *)
Theorem transcribe_audio_remove_refused (w : attempt_world) (p : pystr)
    (model : Model) (fs : filesystem) (t : pystr) (sound : file_content) :
  mkstemp_path w = Some t -> t <> [] ->
  pydub_output w = Some sound -> remove_fails w = true ->
  returned (transcribe_audio w p model fs) = (recognize model sound).2
  /\ fs_after (transcribe_audio w p model fs) !! t = Some sound.
Proof.
  intros Hm Ht Hp Hr. unfold returned, fs_after, transcribe_audio, convert_to_wav.
  rewrite Hm, Hp. destruct t as [|c t]; [done|]. simpl nonempty. cbv iota.
  rewrite lookup_insert_eq. destruct (recognize model sound) as [tr r]. simpl.
  rewrite lookup_insert_eq, bool_decide_eq_true_2 by eauto.
  rewrite Hr. split; [reflexivity|apply lookup_insert_eq].
Qed.

(** When [mkstemp] itself raises, the call returns [None], hands nothing
    to the engine and leaves the file system untouched. *)
Lemma transcribe_audio_mkstemp_raises (w : attempt_world) (p : pystr)
    (model : Model) (fs : filesystem) :
  mkstemp_path w = None ->
  transcribe_audio w p model fs = ([], None, fs).
Proof.
  intros Hm. unfold transcribe_audio, convert_to_wav. by rewrite Hm.
Qed.

Lemma transcribe_audio_some_inv (w : attempt_world) (p : pystr)
    (model : Model) (fs : filesystem) (text : pystr) :
  returned (transcribe_audio w p model fs) = Some text ->
  exists t sound,
    mkstemp_path w = Some t /\ t <> [] /\ pydub_output w = Some sound
    /\ recognize model sound
       = ((transcribe_audio w p model fs).1.1, Some text).
Proof.
  unfold returned, transcribe_audio, convert_to_wav.
  destruct (mkstemp_path w) as [t|]; [|discriminate].
  destruct (pydub_output w) as [sound|]; [|discriminate].
  destruct t as [|c t]; [discriminate|]. simpl nonempty. cbv iota.
  rewrite lookup_insert_eq. destruct (recognize model sound) as [tr r] eqn:E.
  simpl. intros ->. exists (c :: t), sound. by repeat split.
Qed.

(** X4: a transcript is returned only when the conversion succeeded, and
    it is then what the recognizer produced on the converted audio; when
    [mkstemp] or the conversion raises the call returns [None]. *)
Theorem transcribe_audio_some (w : attempt_world) (p : pystr)
    (model : Model) (fs : filesystem) (text : pystr) :
  returned (transcribe_audio w p model fs) = Some text ->
  exists t sound,
    mkstemp_path w = Some t /\ t <> [] /\ pydub_output w = Some sound
    /\ recognize model sound
       = ((transcribe_audio w p model fs).1.1, Some text).
Proof. apply transcribe_audio_some_inv. Qed.

End TempFileFacts.

Lemma transcribe_audio_other_files_witness :
  let fs : filesystem := {[ lit "audio/a.wav" := RawData ]} in
  fs_after (transcribe_audio locked_world (lit "audio/a.wav") tt fs) !! lit "audio/a.wav"
  = fs !! lit "audio/a.wav".
Proof.
  intros fs.
  apply (transcribe_audio_other_files locked_world (lit "audio/a.wav") tt fs).
  discriminate.
Defined.

Lemma transcribe_audio_restores_filesystem_witness :
  let fs : filesystem := {[ lit "audio/a.wav" := RawData ]} in
  fs_after (transcribe_audio good_world (lit "audio/a.wav") tt fs) = fs.
Proof.
  intros fs.
  apply (transcribe_audio_restores_filesystem good_world (lit "audio/a.wav") tt fs
           tmp_wav (Wave speech));
    first [reflexivity | discriminate | apply lookup_singleton_ne; discriminate].
Defined.

Lemma transcribe_audio_remove_refused_witness :
  returned (transcribe_audio locked_world (lit "audio/a.wav") tt ∅)
  = (recognize tt (Wave speech)).2
  /\ fs_after (transcribe_audio locked_world (lit "audio/a.wav") tt ∅) !! tmp_wav
     = Some (Wave speech).
Proof.
  apply (transcribe_audio_remove_refused locked_world (lit "audio/a.wav") tt ∅
           tmp_wav (Wave speech)); first [reflexivity | discriminate].
Defined.

Lemma transcribe_audio_some_witness :
  exists t sound,
    mkstemp_path good_world = Some t /\ t <> [] /\ pydub_output good_world = Some sound
    /\ recognize tt sound
       = ((transcribe_audio good_world (lit "audio/a.wav") tt ∅).1.1, Some (lit "h z")).
Proof.
  apply (transcribe_audio_some good_world (lit "audio/a.wav") tt ∅ (lit "h z")).
  unfold returned, transcribe_audio, convert_to_wav. simpl.
  rewrite lookup_insert_eq. reflexivity.
Defined.

(** ** Whitespace trimming *)

Lemma lstrip_head (s : pystr) (c : N) :
  head (lstrip s) = Some c -> isspace c = false.
Proof.
  induction s as [|d s IH]; simpl; [discriminate|].
  destruct (isspace d) eqn:E; [exact IH|].
  simpl. intros [= <-]. exact E.
Qed.

Lemma lstrip_fixed (s : pystr) :
  (forall c, head s = Some c -> isspace c = false) -> lstrip s = s.
Proof.
  destruct s as [|d s]; [reflexivity|]. intros H. simpl.
  by rewrite (H d eq_refl).
Qed.

Lemma rstrip_snoc (s : pystr) (c : N) :
  rstrip (s ++ [c]) = if isspace c then rstrip s else s ++ [c].
Proof.
  unfold rstrip. rewrite rev_unit. simpl.
  destruct (isspace c); [reflexivity|].
  simpl. by rewrite rev_involutive.
Qed.

Lemma rstrip_last (s : pystr) (c : N) :
  last (rstrip s) = Some c -> isspace c = false.
Proof.
  induction s as [|d s IH] using rev_ind; [discriminate|].
  rewrite rstrip_snoc. destruct (isspace d) eqn:E; [exact IH|].
  rewrite last_snoc. intros [= <-]. exact E.
Qed.

Lemma rstrip_fixed (s : pystr) :
  (forall c, last s = Some c -> isspace c = false) -> rstrip s = s.
Proof.
  destruct s as [|d s _] using rev_ind; [reflexivity|]. intros H.
  rewrite rstrip_snoc. by rewrite (H d (last_snoc _ _)).
Qed.

Lemma rstrip_cons (c : N) (s : pystr) :
  isspace c = false -> rstrip (c :: s) = c :: rstrip s.
Proof.
  intros Hc. induction s as [|d s IH] using rev_ind.
  - unfold rstrip. simpl. by rewrite Hc.
  - rewrite app_comm_cons, !rstrip_snoc.
    destruct (isspace d); [exact IH|reflexivity].
Qed.

Lemma strip_head (s : pystr) (c : N) :
  head (strip s) = Some c -> isspace c = false.
Proof.
  unfold strip. pose proof (lstrip_head s) as H.
  destruct (lstrip s) as [|d s']; [discriminate|].
  specialize (H d eq_refl). rewrite rstrip_cons by done.
  by intros [= <-].
Qed.

Lemma strip_last (s : pystr) (c : N) :
  last (strip s) = Some c -> isspace c = false.
Proof. apply rstrip_last. Qed.

Lemma strip_fixed (s : pystr) :
  (forall c, head s = Some c -> isspace c = false) ->
  (forall c, last s = Some c -> isspace c = false) ->
  strip s = s.
Proof.
  intros Hh Hl. unfold strip. rewrite lstrip_fixed by done. by apply rstrip_fixed.
Qed.

Lemma strip_idempotent (s : pystr) : strip (strip s) = strip s.
Proof. apply strip_fixed; [apply strip_head|apply strip_last]. Qed.

Lemma text_of_stripped (doc : option pystr) : strip (text_of doc) = text_of doc.
Proof. apply strip_idempotent. Qed.

(** ** Chunked reading, for any number of frames *)

Lemma readframes_loop_spec (n fuel : nat) (fr : list Z) :
  (0 < n)%nat -> (length fr <= fuel)%nat ->
  Forall (fun c => (0 < length c <= n)%nat) (readframes_loop fuel n fr)
  /\ length (readframes_loop fuel n fr) = ((length fr + n - 1) / n)%nat
  /\ forall (i : nat) (c : list Z),
       readframes_loop fuel n fr !! i = Some c ->
       (S i < length (readframes_loop fuel n fr))%nat -> length c = n.
Proof.
  intros Hn. revert fr. induction fuel as [|fuel IH]; intros fr Hlen.
  - destruct fr; [|simpl in Hlen; lia]. simpl.
    split; [constructor|]. split; [|intros i c; by rewrite lookup_nil].
    symmetry. apply Nat.div_small. lia.
  - destruct fr as [|z fr].
    + rewrite readframes_loop_nil.
      split; [constructor|]. split; [|intros i c; by rewrite lookup_nil].
      symmetry. apply Nat.div_small. simpl. lia.
    + rewrite readframes_loop_cons by done.
      set (l := z :: fr) in *.
      assert (Hl : (0 < length l)%nat) by (subst l; simpl; lia).
      destruct (IH (drop n l)) as (IH1 & IH2 & IH3);
        [rewrite length_drop; lia|].
      rewrite length_drop in IH2.
      split; [|split].
      * constructor; [|exact IH1]. rewrite length_take. lia.
      * rewrite length_cons, IH2.
        destruct (le_lt_dec n (length l)) as [Hge|Hlt].
        -- replace (length l + n - 1)%nat with ((length l - n + n - 1) + 1 * n)%nat by lia.
           rewrite Nat.div_add by lia. lia.
        -- replace (length l - n + n - 1)%nat with (n - 1)%nat by lia.
           rewrite (Nat.div_small (n - 1) n) by lia.
           apply (Nat.div_unique _ _ 1 (length l - 1)); lia.
      * intros [|i] c Hc Hi; simpl in Hc, Hi.
        -- injection Hc as <-. rewrite length_take.
           destruct (readframes_loop fuel n (drop n l)) as [|c' rest] eqn:E;
             [simpl in Hi; lia|].
           assert (Hd : (0 < length (drop n l))%nat).
           { destruct (drop n l); [by rewrite readframes_loop_nil in E|simpl; lia]. }
           rewrite length_drop in Hd. lia.
        -- apply (IH3 i c Hc). lia.
Qed.

(** X5: whatever the number of frames, the chunks read by the loop at line
    60 are the frames in order, none of them empty or longer than 8000
    frames, all but the last of exactly 8000 frames, and there are
    ceil(frames / 8000) of them. *)
Theorem readframes_all_chunks (fr : list Z) :
  concat (readframes_all CHUNK_FRAMES fr) = fr
  /\ Forall (fun c => (0 < length c <= CHUNK_FRAMES)%nat) (readframes_all CHUNK_FRAMES fr)
  /\ length (readframes_all CHUNK_FRAMES fr)
     = ((length fr + CHUNK_FRAMES - 1) / CHUNK_FRAMES)%nat
  /\ forall (i : nat) (c : list Z),
       readframes_all CHUNK_FRAMES fr !! i = Some c ->
       (S i < length (readframes_all CHUNK_FRAMES fr))%nat ->
       length c = CHUNK_FRAMES.
Proof.
  pose proof CHUNK_FRAMES_pos as Hn.
  split; [apply readframes_loop_concat; [exact Hn|lia]|].
  apply readframes_loop_spec; [exact Hn|lia].
Qed.

Example readframes_partial_chunk :
  map length (readframes_all CHUNK_FRAMES (repeat 1%Z (N.to_nat 20000)))
  = map N.to_nat [8000; 8000; 4000].
Proof. vm_compute. reflexivity. Qed.

(** ** What a recognition session can return *)

Section SessionFacts.

Context {Model rec_state : Type} `{!Recognizer Model rec_state}.

Lemma feed_chunks_trace (chunks : list (list Z)) (rec : rec_state)
    (results : list pystr) :
  final_docs (feed_chunks chunks rec results).1 = []
  /\ length (chunk_docs (feed_chunks chunks rec results).1)
     = boundaries (feed_chunks chunks rec results).1
  /\ fed_chunks (feed_chunks chunks rec results).1 `prefix_of` chunks
  /\ forall rec1 res,
       (feed_chunks chunks rec results).2 = Some (rec1, res) ->
       fed_chunks (feed_chunks chunks rec results).1 = chunks
       /\ res = results
                ++ List.filter nonempty
                     (map text_of (chunk_docs (feed_chunks chunks rec results).1)).
Proof.
  revert rec results. induction chunks as [|chunk rest IH]; intros rec results.
  - simpl. split; [reflexivity|]. split; [reflexivity|].
    split; [apply prefix_nil|].
    intros rec1 res [= <- <-]. split; [reflexivity|by rewrite app_nil_r].
  - simpl. destruct (AcceptWaveform rec chunk) as [[rec1 b]|].
    + destruct b.
      * destruct (Result rec1) as [rec2 doc].
        specialize (IH rec2 (append_if_nonempty results (text_of doc))).
        destruct (feed_chunks rest rec2 _) as [tr r].
        destruct IH as (IH1 & IH2 & IH3 & IH4). simpl in *.
        split; [exact IH1|]. split.
        { change (S (length (chunk_docs tr)) = S (boundaries tr)). by rewrite IH2. }
        split; [by apply prefix_cons|].
        intros rec3 res Hr. destruct (IH4 rec3 res Hr) as [-> ->].
        split; [reflexivity|].
        rewrite append_if_nonempty_filter, <- app_assoc. f_equal.
        unfold chunk_docs. simpl. by destruct (nonempty (text_of doc)).
      * specialize (IH rec1 results).
        destruct (feed_chunks rest rec1 results) as [tr r].
        destruct IH as (IH1 & IH2 & IH3 & IH4). simpl in *.
        split; [exact IH1|]. split; [exact IH2|].
        split; [by apply prefix_cons|].
        intros rec3 res Hr. destruct (IH4 rec3 res Hr) as [-> ->]. by split.
    + simpl. split; [reflexivity|]. split; [reflexivity|].
      split; [apply prefix_nil|discriminate].
Qed.

Lemma recognize_some_inv (model : Model) (content : file_content)
    (tr : trace) (text : pystr) :
  recognize model content = (tr, Some text) ->
  exists wf doc,
    content = Wave wf /\ nchannels wf = 1%Z /\ sampwidth wf = 2%Z
    /\ fed_chunks tr = readframes_all CHUNK_FRAMES (frames wf)
    /\ length (chunk_docs tr) = boundaries tr
    /\ final_docs tr = [doc] /\ last tr = Some (EvFinalResult doc)
    /\ text = expected_transcript tr.
Proof.
  unfold recognize.
  destruct (KaldiRecognizer model SAMPLE_RATE) as [rec0|]; [|discriminate].
  destruct content as [|wf|]; try discriminate.
  destruct (Z.eqb_spec (nchannels wf) 1) as [Hc|]; [|discriminate].
  destruct (Z.eqb_spec (sampwidth wf) 2) as [Hw|]; [|discriminate].
  simpl negb. simpl orb. cbv iota.
  pose proof (feed_chunks_trace (readframes_all CHUNK_FRAMES (frames wf))
                (SetWords rec0 true) []) as (H1 & H2 & H3 & H4).
  destruct (feed_chunks _ (SetWords rec0 true) []) as [tr0 [[rec1 res]|]];
    [|discriminate].
  simpl in H1, H2, H3, H4. destruct (H4 rec1 res eq_refl) as [Hfed ->].
  destruct (FinalResult rec1) as [rec2 doc]. intros [= <- <-].
  exists wf, doc.
  assert (Hdocs : chunk_docs (tr0 ++ [EvFinalResult doc]) = chunk_docs tr0).
  { unfold chunk_docs. rewrite omap_app. simpl. by rewrite app_nil_r. }
  assert (Hfinal : final_docs (tr0 ++ [EvFinalResult doc]) = [doc]).
  { unfold final_docs. rewrite omap_app. fold (final_docs tr0). by rewrite H1. }
  repeat split; try done.
  - unfold fed_chunks. rewrite omap_app. simpl. by rewrite app_nil_r.
  - rewrite Hdocs. unfold boundaries. rewrite List.filter_app, length_app.
    simpl. unfold boundaries in H2. lia.
  - apply last_snoc.
  - unfold expected_transcript.
    by rewrite Hdocs, Hfinal, append_if_nonempty_filter.
Qed.

(** X6: a transcript is returned only for a file that opened as one
    channel of two-byte samples and was streamed completely: every chunk
    of the file was fed in read order, [Result] was asked once per
    utterance boundary, [FinalResult] was called once, last, and the
    transcript is the specification's transcript of that session, a
    session in which every boundary and every text is what the engine
    answered.  This holds for any engine and any number of frames. *)
Theorem recognize_some (model : Model) (content : file_content)
    (tr : trace) (text : pystr) :
  recognize model content = (tr, Some text) ->
  exists wf doc,
    content = Wave wf /\ nchannels wf = 1%Z /\ sampwidth wf = 2%Z
    /\ fed_chunks tr = readframes_all CHUNK_FRAMES (frames wf)
    /\ length (chunk_docs tr) = boundaries tr
    /\ final_docs tr = [doc] /\ last tr = Some (EvFinalResult doc)
    /\ text = expected_transcript tr
    /\ recognition_log model tr.
Proof.
  intros Hrun. pose proof (recognize_some_log _ _ _ _ Hrun) as Hlog.
  destruct (recognize_some_inv _ _ _ _ Hrun)
    as (wf & doc & H1 & H2 & H3 & H4 & H5 & H6 & H7 & H8).
  exists wf, doc. by repeat split.
Qed.

(** X7: when recognition fails ([None]), [FinalResult] has not been
    called, and what was fed to the engine before the failure is a prefix
    of the file's chunks, in read order; nothing is fed at all unless the
    content is a WAV file. *)
Theorem recognize_none (model : Model) (content : file_content) :
  (recognize model content).2 = None ->
  final_docs (recognize model content).1 = []
  /\ match content with
     | Wave wf =>
         fed_chunks (recognize model content).1
           `prefix_of` readframes_all CHUNK_FRAMES (frames wf)
     | _ => (recognize model content).1 = []
     end.
Proof.
  unfold recognize.
  destruct (KaldiRecognizer model SAMPLE_RATE) as [rec0|];
    [|intros _; split; [reflexivity|destruct content; solve [reflexivity|apply prefix_nil]]].
  destruct content as [|wf|]; try (intros _; by split).
  destruct (negb (nchannels wf =? 1)%Z || negb (sampwidth wf =? 2)%Z);
    [intros _; split; [reflexivity|apply prefix_nil]|].
  pose proof (feed_chunks_trace (readframes_all CHUNK_FRAMES (frames wf))
                (SetWords rec0 true) []) as (H1 & H2 & H3 & H4).
  destruct (feed_chunks _ (SetWords rec0 true) []) as [tr0 [[rec1 res]|]].
  - destruct (FinalResult rec1). discriminate.
  - intros _. by split.
Qed.

Lemma join_head_nonspace (t : pystr) (rest : list pystr) (c : N) :
  head t = Some c -> head (join (lit " ") (t :: rest)) = Some c.
Proof.
  destruct t as [|d t]; [discriminate|]. intros [= <-].
  destruct rest; reflexivity.
Qed.

Lemma filter_nonempty_text_nil (docs : list (option pystr)) :
  List.filter nonempty (map text_of docs) = []
  <-> Forall (fun d => text_of d = []) docs.
Proof.
  induction docs as [|d docs IH]; simpl; [by split|].
  destruct (text_of d) eqn:E; simpl.
  - rewrite IH. split; [by constructor|by inversion 1].
  - split; [discriminate|]. inversion 1; congruence.
Qed.

Lemma filter_nonempty_text_head (docs : list (option pystr)) (t : pystr)
    (rest : list pystr) :
  List.filter nonempty (map text_of docs) = t :: rest ->
  exists c, head t = Some c /\ isspace c = false.
Proof.
  induction docs as [|d docs IH]; simpl; [discriminate|].
  destruct (nonempty (text_of d)) eqn:E; [|exact IH].
  intros [= <- _]. destruct (text_of d) as [|c s] eqn:Et; [discriminate|].
  exists c. split; [reflexivity|].
  apply (strip_head (default [] d)). fold (text_of d). by rewrite Et.
Qed.

(** The specification's transcript is trimmed, and empty exactly when no
    document of the session carries text. *)
Lemma expected_transcript_facts (tr : trace) :
  strip (expected_transcript tr) = expected_transcript tr
  /\ (expected_transcript tr = []
      <-> Forall (fun d => text_of d = []) (chunk_docs tr ++ final_docs tr)).
Proof.
  split; [apply strip_idempotent|].
  unfold expected_transcript.
  rewrite <- List.filter_app, <- map_app.
  rewrite <- filter_nonempty_text_nil.
  destruct (List.filter nonempty (map text_of (chunk_docs tr ++ final_docs tr)))
    as [|t rest] eqn:E; [by split|].
  split; [|discriminate]. intros Hnil. exfalso.
  destruct (filter_nonempty_text_head _ _ _ E) as (c & Hc & Hsp).
  pose proof (join_head_nonspace t rest c Hc) as Hj.
  unfold strip in Hnil.
  destruct (join (lit " ") (t :: rest)) as [|c' s]; [discriminate|].
  injection Hj as ->. simpl lstrip in Hnil. rewrite Hsp in Hnil.
  by rewrite rstrip_cons in Hnil.
Qed.

End SessionFacts.

Section TranscriptFacts.

Context {Model rec_state : Type} `{!Recognizer Model rec_state}.

(** X8: a transcript returned by [transcribe_audio] has no whitespace at
    either end, and it is the empty string exactly when no document of the
    session, per-chunk or final, carries text; this is the case the retry
    loop counts as a failure. *)
Theorem transcript_is_trimmed (w : attempt_world) (p : pystr) (model : Model)
    (fs : filesystem) (text : pystr) :
  returned (transcribe_audio w p model fs) = Some text ->
  strip text = text
  /\ (forall c, head text = Some c -> isspace c = false)
  /\ (forall c, last text = Some c -> isspace c = false)
  /\ (text = []
      <-> Forall (fun d => text_of d = [])
            (chunk_docs (transcribe_audio w p model fs).1.1
             ++ final_docs (transcribe_audio w p model fs).1.1)).
Proof.
  intros Hret.
  destruct (transcribe_audio_some_inv w p model fs text Hret)
    as (t & sound & _ & _ & _ & Hrec).
  destruct (recognize_some_inv model sound _ text Hrec)
    as (wf & doc & _ & _ & _ & _ & _ & _ & _ & Htext).
  destruct (expected_transcript_facts (transcribe_audio w p model fs).1.1)
    as [Hstrip Hnil].
  rewrite <- Htext in Hstrip, Hnil.
  split; [exact Hstrip|]. split; [|split; [|exact Hnil]].
  - intros c. rewrite <- Hstrip. apply strip_head.
  - intros c. rewrite <- Hstrip. apply strip_last.
Qed.

(** X9: a file with a valid header and no frames is not an error: the
    engine is fed nothing, [FinalResult] is still called once, and the
    stripped final text is returned. *)
Theorem recognize_no_frames (model : Model) (wf : wav_file) (rec0 : rec_state) :
  nchannels wf = 1%Z -> sampwidth wf = 2%Z -> frames wf = [] ->
  KaldiRecognizer model SAMPLE_RATE = Some rec0 ->
  recognize model (Wave wf)
  = ([EvFinalResult (FinalResult (SetWords rec0 true)).2],
     Some (text_of (FinalResult (SetWords rec0 true)).2)).
Proof.
  intros Hc Hw Hf Hr. unfold recognize. rewrite Hr, Hc, Hw, Hf. simpl.
  destruct (FinalResult (SetWords rec0 true)) as [rec1 doc]. simpl.
  f_equal. f_equal. unfold append_if_nonempty. simpl.
  destruct (nonempty (text_of doc)) eqn:E; simpl.
  - apply text_of_stripped.
  - destruct (text_of doc); [reflexivity|discriminate].
Qed.

End TranscriptFacts.

Lemma recognize_some_witness :
  recognize tt (Wave speech)
  = ([EvAccept [7; 0; 0]%Z true; EvResult (Some [32; 104]);
      EvFinalResult (Some [122; 10])], Some (lit "h z"))
  /\ exists wf doc,
       Wave speech = Wave wf /\ nchannels wf = 1%Z /\ sampwidth wf = 2%Z
       /\ fed_chunks (recognize tt (Wave speech)).1
          = readframes_all CHUNK_FRAMES (frames wf)
       /\ length (chunk_docs (recognize tt (Wave speech)).1)
          = boundaries (recognize tt (Wave speech)).1
       /\ final_docs (recognize tt (Wave speech)).1 = [doc]
       /\ last (recognize tt (Wave speech)).1 = Some (EvFinalResult doc)
       /\ lit "h z" = expected_transcript (recognize tt (Wave speech)).1
       /\ recognition_log tt (recognize tt (Wave speech)).1.
Proof.
  split; [reflexivity|].
  apply (recognize_some tt (Wave speech)). reflexivity.
Defined.

Lemma recognize_none_witness :
  final_docs (recognize tt (Wave {| nchannels := 2; sampwidth := 2;
                                    framerate := 16000; frames := [1; 2]%Z |})).1 = []
  /\ fed_chunks (recognize tt (Wave {| nchannels := 2; sampwidth := 2;
                                       framerate := 16000; frames := [1; 2]%Z |})).1
     `prefix_of` readframes_all CHUNK_FRAMES [1; 2]%Z.
Proof.
  apply (recognize_none tt (Wave {| nchannels := 2; sampwidth := 2;
                                    framerate := 16000; frames := [1; 2]%Z |})).
  reflexivity.
Defined.

Lemma transcript_is_trimmed_witness :
  strip (lit "h z") = lit "h z"
  /\ (forall c, head (lit "h z") = Some c -> isspace c = false)
  /\ (forall c, last (lit "h z") = Some c -> isspace c = false)
  /\ (lit "h z" = []
      <-> Forall (fun d => text_of d = [])
            (chunk_docs (transcribe_audio good_world (lit "audio/a.wav") tt ∅).1.1
             ++ final_docs (transcribe_audio good_world (lit "audio/a.wav") tt ∅).1.1)).
Proof.
  apply (transcript_is_trimmed good_world (lit "audio/a.wav") tt ∅ (lit "h z")).
  unfold returned, transcribe_audio, convert_to_wav. simpl.
  rewrite lookup_insert_eq. reflexivity.
Defined.

Lemma recognize_no_frames_witness :
  recognize tt (Wave {| nchannels := 1; sampwidth := 2; framerate := 16000;
                        frames := [] |})
  = ([EvFinalResult (Some [122; 10])], Some (lit "z")).
Proof.
  exact (recognize_no_frames tt {| nchannels := 1; sampwidth := 2;
                                   framerate := 16000; frames := [] |} None
           eq_refl eq_refl eq_refl eq_refl).
Defined.

(** ** The per-file task, beyond the three-attempt cases *)

Section TaskFacts.

Context {Model rec_state : Type} `{!Recognizer Model rec_state}.
Variable unicode_alnum : N -> bool.

Lemma attempts_loop_spec (worlds : nat -> attempt_world) (attempts : list nat)
    (p : pystr) (model : Model) (fs : filesystem) :
  match (attempts_loop worlds attempts p model fs).1.1 with
  | Some t =>
      t <> []
      /\ exists pre tr,
           (attempts_loop worlds attempts p model fs).2 = pre ++ [(tr, Some t)]
           /\ Forall failed pre
  | None =>
      length (attempts_loop worlds attempts p model fs).2 = length attempts
      /\ Forall failed (attempts_loop worlds attempts p model fs).2
  end.
Proof.
  revert fs. induction attempts as [|a rest IH]; intros fs; simpl.
  - split; [reflexivity|constructor].
  - destruct (transcribe_audio (worlds a) p model fs) as [[tr r] fs1].
    destruct (truthy r) eqn:Er; simpl.
    + destruct r as [t|]; [|discriminate]. split.
      * intros ->. discriminate.
      * exists [], tr. by split.
    + specialize (IH fs1).
      destruct (attempts_loop worlds rest p model fs1) as [[out fs2] log].
      simpl in *. destruct out as [t|].
      * destruct IH as [Hne (pre & tr' & -> & Hpre)]. split; [exact Hne|].
        exists ((tr, r) :: pre), tr'. split; [reflexivity|].
        constructor; [exact Er|exact Hpre].
      * destruct IH as [Hlen Hall]. split; [by rewrite Hlen|].
        constructor; [exact Er|exact Hall].
Qed.

Lemma attempts_loop_lookup_ne (worlds : nat -> attempt_world)
    (attempts : list nat) (p : pystr) (model : Model) (fs : filesystem)
    (q : pystr) :
  (forall k, k ∈ attempts -> mkstemp_path (worlds k) <> Some q) ->
  (attempts_loop worlds attempts p model fs).1.2 !! q = fs !! q.
Proof.
  revert fs. induction attempts as [|a rest IH]; intros fs Hq; simpl; [reflexivity|].
  pose proof (transcribe_audio_lookup_ne (worlds a) p model fs q
                (Hq a (list_elem_of_here _ _))) as Ha.
  unfold fs_after in Ha.
  destruct (transcribe_audio (worlds a) p model fs) as [[tr r] fs1].
  simpl in Ha. destruct (truthy r); simpl; [exact Ha|].
  specialize (IH fs1 (fun k Hk => Hq k (list_elem_of_further _ _ _ Hk))).
  destruct (attempts_loop worlds rest p model fs1) as [[out fs2] log].
  simpl in *. by rewrite IH.
Qed.

(** X10: called with an index that is a [str], a tuple of fewer than two
    items, or a tuple whose first item is a [str] or a tuple, the task
    raises while formatting line 85, [IndexError] when the item subscripted
    is missing and [TypeError] when [1] cannot be added, before any
    attempt and with the file system as it was. *)
Theorem process_audio_file_malformed_index (worlds : nat -> attempt_world)
    (f d : pystr) (model : Model) (fs : filesystem) :
  (forall s,
     process_audio_file unicode_alnum worlds (PyStr s) f d model fs
     = (inl (if nonempty s then TypeError else IndexError), fs, []))
  /\ process_audio_file unicode_alnum worlds (PyTuple []) f d model fs
     = (inl IndexError, fs, [])
  /\ (forall i,
       process_audio_file unicode_alnum worlds (PyTuple [PyInt i]) f d model fs
       = (inl IndexError, fs, []))
  /\ (forall s rest,
       process_audio_file unicode_alnum worlds (PyTuple (PyStr s :: rest)) f d model fs
       = (inl TypeError, fs, []))
  /\ (forall items rest,
       process_audio_file unicode_alnum worlds (PyTuple (PyTuple items :: rest))
         f d model fs
       = (inl TypeError, fs, [])).
Proof.
  repeat split; try reflexivity.
  intros [|c s]; reflexivity.
Qed.

(** X11: for [idx = (i, total, ...)], the result carries a derived filename
    exactly when it carries a transcript.  A transcript in the result is
    never empty, was returned by the last call made, all earlier calls
    having failed, and the filename is derived from it; without one, all
    three calls were made and all failed. *)
Theorem task_result_invariant (worlds : nat -> attempt_world) (i : Z)
    (total : pyobj) (more : list pyobj) (f d : pystr) (model : Model)
    (fs : filesystem) :
  exists r,
    (process_audio_file unicode_alnum worlds (PyTuple (PyInt i :: total :: more))
       f d model fs).1.1 = inr r
    /\ match res_text r with
       | Some t =>
           t <> []
           /\ res_new r = Some (new_name unicode_alnum i t f)
           /\ exists pre tr,
                (process_audio_file unicode_alnum worlds
                   (PyTuple (PyInt i :: total :: more)) f d model fs).2
                = pre ++ [(tr, Some t)]
                /\ Forall failed pre
       | None =>
           res_new r = None
           /\ length (process_audio_file unicode_alnum worlds
                        (PyTuple (PyInt i :: total :: more)) f d model fs).2 = 3%nat
           /\ Forall failed
                (process_audio_file unicode_alnum worlds
                   (PyTuple (PyInt i :: total :: more)) f d model fs).2
       end.
Proof.
  unfold process_audio_file. simpl getitem. simpl add_one. cbv iota.
  pose proof (attempts_loop_spec worlds (seq 0 3) (path_join d f) model fs) as Hs.
  destruct (attempts_loop worlds (seq 0 3) (path_join d f) model fs)
    as [[[t|] fs1] log]; simpl in Hs; eexists; (split; [reflexivity|]); simpl.
  - destruct Hs as [Hne Hlog]. by repeat split.
  - destruct Hs as [Hlen Hall]. by repeat split.
Qed.

(** X12: when the first call of the pipeline returns a non-empty
    transcript the task returns at once: one call is made, the worlds of
    the later attempts are not consulted, and the file system is the one
    that call left. *)
Theorem first_attempt_success (worlds : nat -> attempt_world) (i : Z)
    (total : pyobj) (more : list pyobj) (f d : pystr) (model : Model)
    (fs : filesystem) (text : pystr) :
  returned (transcribe_audio (worlds 0%nat) (path_join d f) model fs) = Some text ->
  text <> [] ->
  process_audio_file unicode_alnum worlds (PyTuple (PyInt i :: total :: more))
    f d model fs
  = (inr {| res_idx := i; res_orig := f;
            res_new := Some (new_name unicode_alnum i text f);
            res_text := Some text |},
     fs_after (transcribe_audio (worlds 0%nat) (path_join d f) model fs),
     [(transcribe_audio (worlds 0%nat) (path_join d f) model fs).1]).
Proof.
  intros Hret Hne. unfold process_audio_file. simpl getitem. simpl add_one.
  cbv iota. simpl seq. simpl attempts_loop.
  unfold returned, fs_after in *.
  destruct (transcribe_audio (worlds 0%nat) (path_join d f) model fs)
    as [[tr r] fs1].
  simpl in Hret. subst r. destruct text as [|c text]; [done|]. reflexivity.
Qed.

(** X13: whatever [idx] is and however the attempts end, the task leaves
    every file alone that is not the temporary file of one of its three
    attempts; it never renames, rewrites or removes the audio file. *)
Theorem process_audio_file_other_files (worlds : nat -> attempt_world)
    (idx : pyobj) (f d : pystr) (model : Model) (fs : filesystem) (q : pystr) :
  (forall k, (k < 3)%nat -> mkstemp_path (worlds k) <> Some q) ->
  (process_audio_file unicode_alnum worlds idx f d model fs).1.2 !! q = fs !! q.
Proof.
  intros Hq. unfold process_audio_file.
  destruct (getitem idx 0) as [e|i0]; [reflexivity|].
  destruct (add_one i0) as [e|n]; [reflexivity|].
  destruct (getitem idx 1) as [e|t]; [reflexivity|].
  pose proof (attempts_loop_lookup_ne worlds (seq 0 3) (path_join d f) model fs q)
    as Hl.
  destruct (attempts_loop worlds (seq 0 3) (path_join d f) model fs)
    as [[out fs1] log].
  simpl in Hl. assert (Hfs : fs1 !! q = fs !! q).
  { apply Hl. intros k Hk. apply Hq.
    rewrite !elem_of_cons, elem_of_nil in Hk. lia. }
  by destruct out.
Qed.

(** X14: a file that cannot be decoded costs three temporary files: each
    attempt gets a name from [mkstemp], fails in the conversion and leaves
    its file behind; the task then reports no transcript and no derived
    name. *)
Theorem failed_conversions_leak (worlds : nat -> attempt_world) (i : Z)
    (total : pyobj) (more : list pyobj) (f d : pystr) (model : Model)
    (fs : filesystem) (t0 t1 t2 : pystr) :
  mkstemp_path (worlds 0%nat) = Some t0 -> pydub_output (worlds 0%nat) = None ->
  mkstemp_path (worlds 1%nat) = Some t1 -> pydub_output (worlds 1%nat) = None ->
  mkstemp_path (worlds 2%nat) = Some t2 -> pydub_output (worlds 2%nat) = None ->
  process_audio_file unicode_alnum worlds (PyTuple (PyInt i :: total :: more))
    f d model fs
  = (inr {| res_idx := i; res_orig := f; res_new := None; res_text := None |},
     <[t2 := RawData]> (<[t1 := RawData]> (<[t0 := RawData]> fs)),
     [([], None); ([], None); ([], None)])
  /\ forall t, t ∈ [t0; t1; t2] ->
       is_Some ((<[t2 := RawData]> (<[t1 := RawData]> (<[t0 := RawData]> fs))) !! t).
Proof.
  intros M0 P0 M1 P1 M2 P2. split.
  - unfold process_audio_file. simpl getitem. simpl add_one. cbv iota.
    simpl seq. simpl attempts_loop.
    rewrite (transcribe_audio_failed_conversion (worlds 0%nat) _ model fs t0 M0 P0).
    simpl truthy. cbv iota.
    rewrite (transcribe_audio_failed_conversion (worlds 1%nat) _ model _ t1 M1 P1).
    simpl truthy. cbv iota.
    rewrite (transcribe_audio_failed_conversion (worlds 2%nat) _ model _ t2 M2 P2).
    reflexivity.
  - intros t Ht. rewrite !elem_of_cons, elem_of_nil in Ht.
    rewrite !lookup_insert.
    destruct Ht as [->|[->|[->|[]]]]; repeat case_decide; eauto; congruence.
Qed.

End TaskFacts.

Lemma first_attempt_success_witness :
  process_audio_file (fun _ => false) (fun _ => good_world)
    (PyTuple [PyInt 0; PyInt 1]) (lit "a.wav") (lit "audio") tt ∅
  = (inr {| res_idx := 0; res_orig := lit "a.wav";
            res_new := Some (new_name (fun _ => false) 0 (lit "h z") (lit "a.wav"));
            res_text := Some (lit "h z") |},
     fs_after (transcribe_audio good_world (path_join (lit "audio") (lit "a.wav")) tt ∅),
     [(transcribe_audio good_world (path_join (lit "audio") (lit "a.wav")) tt ∅).1]).
Proof.
  apply (first_attempt_success (fun _ => false) (fun _ => good_world) 0 (PyInt 1) []
           (lit "a.wav") (lit "audio") tt ∅ (lit "h z")); [|discriminate].
  unfold returned, transcribe_audio, convert_to_wav. simpl.
  rewrite lookup_insert_eq. reflexivity.
Defined.

Lemma process_audio_file_other_files_witness :
  let fs : filesystem := {[ lit "audio/b.mp3" := RawData ]} in
  (process_audio_file (fun _ => false) corrupt_worlds (PyTuple [PyInt 1; PyInt 3])
     (lit "b.mp3") (lit "audio") tt fs).1.2 !! lit "audio/b.mp3"
  = fs !! lit "audio/b.mp3".
Proof.
  intros fs.
  apply (process_audio_file_other_files (fun _ => false) corrupt_worlds
           (PyTuple [PyInt 1; PyInt 3]) (lit "b.mp3") (lit "audio") tt fs).
  intros k _. discriminate.
Defined.

Lemma failed_conversions_leak_witness :
  process_audio_file (fun _ => false) corrupt_worlds (PyTuple [PyInt 1; PyInt 3])
    (lit "b.mp3") (lit "audio") tt ∅
  = (inr {| res_idx := 1; res_orig := lit "b.mp3"; res_new := None; res_text := None |},
     <[lit "/tmp/tmp2.wav" := RawData]>
       (<[lit "/tmp/tmp1.wav" := RawData]> (<[lit "/tmp/tmp0.wav" := RawData]> ∅)),
     [([], None); ([], None); ([], None)])
  /\ forall t, t ∈ [lit "/tmp/tmp0.wav"; lit "/tmp/tmp1.wav"; lit "/tmp/tmp2.wav"] ->
       is_Some ((<[lit "/tmp/tmp2.wav" := RawData]>
                   (<[lit "/tmp/tmp1.wav" := RawData]>
                      (<[lit "/tmp/tmp0.wav" := RawData]> (∅ : filesystem)))) !! t).
Proof.
  apply (failed_conversions_leak (fun _ => false) corrupt_worlds 1 (PyInt 3) []
           (lit "b.mp3") (lit "audio") tt ∅); reflexivity.
Defined.

(** ** The derived filename as a file name *)

Lemma basename_no_sep (p : pystr) : SEP ∉ basename p.
Proof.
  induction p as [|c p IH]; simpl; [apply not_elem_of_nil|].
  destruct (existsb (N.eqb SEP) p) eqn:E; [exact IH|].
  assert (Hp : SEP ∉ p).
  { intros Hin. apply list_elem_of_In in Hin.
    assert (existsb (N.eqb SEP) p = true); [|congruence].
    apply existsb_exists. exists SEP. split; [exact Hin|apply N.eqb_refl]. }
  destruct (N.eqb_spec c SEP) as [->|Hc]; [exact Hp|].
  apply not_elem_of_cons. split; [congruence|exact Hp].
Qed.

Lemma basename_id (p : pystr) : SEP ∉ p -> basename p = p.
Proof.
  induction p as [|c p IH]; [reflexivity|]. intros Hn.
  apply not_elem_of_cons in Hn as [Hc Hp]. simpl.
  assert (E : existsb (N.eqb SEP) p = false).
  { destruct (existsb (N.eqb SEP) p) eqn:E; [|reflexivity]. exfalso.
    apply existsb_exists in E as (x & Hx & Hxe). apply N.eqb_eq in Hxe. subst x.
    apply Hp. by apply list_elem_of_In. }
  rewrite E. destruct (N.eqb_spec c SEP); [congruence|reflexivity].
Qed.

(** The extension, when there is one, is a dot followed by dot-free
    characters at the end of the string. *)
Lemma from_last_dot_some (s e : pystr) :
  from_last_dot s = Some e ->
  exists pre e', s = pre ++ e /\ e = EXTSEP :: e' /\ from_last_dot e' = None.
Proof.
  revert e. induction s as [|c s IH]; intros e; simpl; [discriminate|].
  destruct (from_last_dot s) as [e0|] eqn:E.
  - intros [= <-]. destruct (IH e0 eq_refl) as (pre & e' & -> & -> & He').
    exists (c :: pre), e'. by repeat split.
  - destruct (N.eqb_spec c EXTSEP) as [->|]; [|discriminate].
    intros [= <-]. exists [], s. by repeat split.
Qed.

Lemma from_last_dot_app (pre e' : pystr) :
  from_last_dot e' = None ->
  from_last_dot (pre ++ EXTSEP :: e') = Some (EXTSEP :: e').
Proof.
  intros He. induction pre as [|c pre IH]; simpl.
  - by rewrite He.
  - by rewrite IH.
Qed.

Lemma splitext_ext_sub (p : pystr) (c : N) : c ∈ splitext_ext p -> c ∈ basename p.
Proof.
  unfold splitext_ext. destruct (from_last_dot (basename p)) as [e|] eqn:E.
  - destruct (from_last_dot_some _ _ E) as (pre & e' & Hb & _ & _).
    destruct (forallb _ _); [by intros ?%elem_of_nil|].
    intros Hc. rewrite Hb. apply elem_of_app. by right.
  - by intros ?%elem_of_nil.
Qed.

(** What [splitext] returns as a non-empty extension. *)
Lemma splitext_ext_shape (p : pystr) :
  splitext_ext p = [] \/
  exists e', splitext_ext p = EXTSEP :: e' /\ from_last_dot e' = None.
Proof.
  unfold splitext_ext. destruct (from_last_dot (basename p)) as [e|] eqn:E; [|by left].
  destruct (forallb _ _); [by left|right].
  destruct (from_last_dot_some _ _ E) as (pre & e' & _ & -> & He'). eauto.
Qed.

Lemma forallb_head_false {A : Type} (g : A -> bool) (x : A) (l : list A) :
  g x = false -> forallb g (x :: l) = false.
Proof. intros H. simpl. by rewrite H. Qed.

Section DerivedNameFacts.

Variable unicode_alnum : N -> bool.

Lemma format_02d_no_sep (z : Z) : SEP ∉ format_02d z.
Proof.
  destruct (format_02d_head z) as (c & s & -> & Hc & Hs).
  apply not_elem_of_cons. split.
  - destruct Hc as [Hc| ->]; [|discriminate]. intros <-. discriminate.
  - intros Hin. rewrite Forall_forall in Hs. specialize (Hs _ Hin). discriminate.
Qed.

Lemma safe_name_no_sep (t : pystr) : SEP ∉ safe_name unicode_alnum t.
Proof.
  intros Hin. unfold safe_name, sanitize in Hin.
  apply list_elem_of_fmap in Hin as (c & Hc & _).
  pose proof (sanitize_char_allowed unicode_alnum c) as Ha.
  rewrite <- Hc in Ha. discriminate.
Qed.

Lemma new_name_prefix_no_sep (i : Z) (t : pystr) :
  SEP ∉ (format_02d (i + 1) ++ lit " - " ++ safe_name unicode_alnum t).
Proof.
  rewrite !not_elem_of_app. split; [apply format_02d_no_sep|].
  split; [|apply safe_name_no_sep].
  intros Hin. change (lit " - ") with [32; 45; 32] in Hin.
  rewrite !elem_of_cons, elem_of_nil in Hin.
  destruct Hin as [|[|[|[]]]]; discriminate.
Qed.

(** X15: the derived filename never contains a path separator, whatever
    the transcript and the original name: slashes of the transcript are
    replaced, and the extension comes from the base name.  Joined with the
    audio directory it names an entry of that directory. *)
Theorem new_name_no_separator (audio_dir : pystr) (i : Z) (t f : pystr) :
  (SEP ∉ new_name unicode_alnum i t f)
  /\ basename (new_name unicode_alnum i t f) = new_name unicode_alnum i t f
  /\ exists prefix,
       path_join audio_dir (new_name unicode_alnum i t f)
       = prefix ++ new_name unicode_alnum i t f
       /\ (prefix = audio_dir \/ prefix = audio_dir ++ [SEP]).
Proof.
  assert (Hn : SEP ∉ new_name unicode_alnum i t f).
  { unfold new_name. rewrite !app_assoc, <- (app_assoc _ (lit " - ")).
    apply not_elem_of_app. split; [apply new_name_prefix_no_sep|].
    intros Hin. apply splitext_ext_sub in Hin. by apply basename_no_sep in Hin. }
  split; [exact Hn|]. split; [by apply basename_id|].
  unfold path_join. rewrite new_name_not_absolute.
  destruct (negb (nonempty audio_dir) || endswith_sep audio_dir).
  - exists audio_dir. auto.
  - exists (audio_dir ++ [SEP]). split; [|auto].
    by rewrite <- app_assoc.
Qed.

(** X16: a file that has an extension keeps it: [os.path.splitext] of the
    derived filename gives the extension of the original name back, so a
    renamed [.wav] is still a [.wav] for a later run. *)
Theorem new_name_keeps_extension (i : Z) (t f : pystr) :
  splitext_ext f <> [] ->
  splitext_ext (new_name unicode_alnum i t f) = splitext_ext f.
Proof.
  intros Hext.
  destruct (splitext_ext_shape f) as [He|(e' & He & Hnodot)]; [congruence|].
  pose proof (new_name_no_separator [] i t f) as (Hsep & Hbase & _).
  set (pre := format_02d (i + 1) ++ lit " - " ++ safe_name unicode_alnum t).
  assert (Hname : new_name unicode_alnum i t f = pre ++ EXTSEP :: e').
  { unfold new_name, pre. by rewrite He, <- !app_assoc. }
  unfold splitext_ext at 1. rewrite Hbase, Hname.
  rewrite from_last_dot_app by done.
  rewrite length_app. simpl length.
  replace (length pre + S (length e') - S (length e'))%nat with (length pre) by lia.
  rewrite take_app_length.
  assert (Hpre : forallb (N.eqb EXTSEP) pre = false).
  { subst pre. destruct (format_02d_head (i + 1)) as (c & s & -> & Hc & _).
    rewrite <- app_comm_cons. apply forallb_head_false.
    destruct Hc as [Hc| ->]; [|reflexivity].
    destruct (N.eqb_spec EXTSEP c) as [<-|]; [discriminate|reflexivity]. }
  by rewrite Hpre, He.
Qed.

End DerivedNameFacts.

Lemma new_name_keeps_extension_witness :
  splitext_ext (new_name (fun _ => false) 4 (lit "see you. bye") (lit "tape.v2.flac"))
  = splitext_ext (lit "tape.v2.flac").
Proof.
  apply (new_name_keeps_extension (fun _ => false) 4 (lit "see you. bye")
           (lit "tape.v2.flac")).
  discriminate.
Defined.

(** Without an extension to keep, a period of the transcript starts one. *)
Example new_name_gains_extension :
  splitext_ext (lit "README") = []
  /\ splitext_ext (new_name (fun _ => false) 0 (lit "a.b") (lit "README")) = lit ".b".
Proof. split; reflexivity. Qed.

(** X17: the index prefix has at least two characters; for the first 99
    files (indices 0 to 98) it is exactly the two decimal digits of the
    one-based index. *)
Theorem format_02d_two_digits (z : Z) :
  (2 <= length (format_02d z))%nat
  /\ ((0 <= z <= 99)%Z ->
      format_02d z = [48 + Z.to_N (z / 10); 48 + Z.to_N (z mod 10)]).
Proof.
  split.
  - destruct (Z_lt_le_dec z 0) as [Hneg|Hpos].
    + destruct z as [| |p]; try lia. rewrite format_02d_neg.
      pose proof (decimal_nonempty (Npos p)).
      destruct (decimal (Npos p)); [congruence|simpl; lia].
    + rewrite format_02d_nonneg by done.
      destruct (zfill2_decimal (Z.to_N z)) as [[-> L]|(c & _ & ->)];
        [exact L|simpl; lia].
  - intros Hz. destruct z as [|p|p]; [reflexivity| |lia].
    do 7 (try (destruct p as [p|p|]; try lia; try reflexivity)).
Qed.

Lemma format_02d_two_digits_witness :
  format_02d 42 = [48 + Z.to_N (42 / 10); 48 + Z.to_N (42 mod 10)].
Proof. apply (format_02d_two_digits 42). lia. Defined.

Example format_02d_hundredth_file : format_02d (99 + 1) = lit "100".
Proof. reflexivity. Qed.

(** ** Collecting the results *)

Lemma collect_outcome (audio_dir : pystr) (rr : pystr -> bool)
    (outs : list (exn + task_result)) (acc : list (Z * pystr)) (fs : filesystem) :
  (collect audio_dir rr outs acc fs).2
  = match first_raised outs with
    | Some e => inl e
    | None => inr (acc ++ map buffered (successes outs))
    end.
Proof.
  revert acc fs. induction outs as [|[e|r] outs IH]; intros acc fs.
  - simpl. by rewrite app_nil_r.
  - reflexivity.
  - change (first_raised (inr r :: outs)) with (first_raised outs).
    unfold successes. simpl. fold (successes outs).
    destruct (res_text r) as [t|]; [destruct (nonempty t)|]; simpl; try apply IH.
    assert (Hgoal : forall fs0,
              (collect audio_dir rr outs
                 (acc ++ [(res_idx r, transcript_line (res_idx r) t)]) fs0).2
              = match first_raised outs with
                | Some e => inl e
                | None => inr (acc ++ buffered (res_idx r, t)
                                 :: map buffered (successes outs))
                end).
    { intros fs0. rewrite IH. destruct (first_raised outs); [reflexivity|].
      by rewrite <- app_assoc. }
    destruct (res_new r) as [new|]; [destruct (nonempty new)|]; try apply Hgoal.
    destruct (os_rename _ _ _ fs) as [fs1|].
    + specialize (Hgoal fs1).
      destruct (collect audio_dir rr outs _ fs1) as [[ev1 fs2] out]. exact Hgoal.
    + specialize (Hgoal fs).
      destruct (collect audio_dir rr outs _ fs) as [[ev1 fs2] out]. exact Hgoal.
Qed.

(** X18: what the collection loop hands to the writer does not depend on
    the renames: if no future raised it is one line per task that returned
    a non-empty transcript, in completion order, whether or not its file
    could be renamed; if one raised, its exception leaves the loop. *)
Theorem collect_buffers_every_transcript (audio_dir : pystr)
    (rr rr' : pystr -> bool) (outs : list (exn + task_result))
    (acc : list (Z * pystr)) (fs fs' : filesystem) :
  (collect audio_dir rr outs acc fs).2
  = match first_raised outs with
    | Some e => inl e
    | None => inr (acc ++ map buffered (successes outs))
    end
  /\ (collect audio_dir rr outs acc fs).2 = (collect audio_dir rr' outs acc fs').2.
Proof.
  split; [apply collect_outcome|]. by rewrite !collect_outcome.
Qed.

(** X19: when a future raises, the loop stops there: the files of the
    tasks that completed before it have been renamed, nothing is done for
    the futures after it, and the lines buffered so far are lost with the
    exception. *)
Theorem collect_stops_at_exception (audio_dir : pystr) (rr : pystr -> bool)
    (rs : list task_result) (e : exn) (rest : list (exn + task_result))
    (acc : list (Z * pystr)) (fs : filesystem) :
  collect audio_dir rr (map inr rs ++ inl e :: rest) acc fs
  = ((collect audio_dir rr (map inr rs) acc fs).1.1,
     (collect audio_dir rr (map inr rs) acc fs).1.2,
     inl e).
Proof.
  revert acc fs. induction rs as [|r rs IH]; intros acc fs; [reflexivity|].
  simpl.
  destruct (res_text r) as [t|]; [destruct (nonempty t)|]; try apply IH.
  destruct (res_new r) as [new|]; [destruct (nonempty new)|]; try apply IH.
  destruct (os_rename _ _ _ fs) as [fs1|].
  - rewrite IH. by destruct (collect audio_dir rr (map inr rs) _ fs1) as [[ev1 fs2] out].
  - rewrite IH. by destruct (collect audio_dir rr (map inr rs) _ fs) as [[ev1 fs2] out].
Qed.

(** X20: tasks that returned without a transcript (attempts exhausted, or
    an empty string) cause no rename, no message and no line: their files
    keep their names. *)
Theorem collect_skips_failed_tasks (audio_dir : pystr) (rr : pystr -> bool)
    (rs : list task_result) (acc : list (Z * pystr)) (fs : filesystem) :
  Forall without_transcript rs ->
  collect audio_dir rr (map inr rs) acc fs = ([], fs, inr acc).
Proof.
  induction 1 as [|r rs Hr _ IH]; [reflexivity|]. simpl.
  unfold without_transcript, truthy in Hr.
  destruct (res_text r) as [t|]; [|exact IH]. by rewrite Hr.
Qed.

(** X21: for a task with a transcript and a derived name whose source file
    exists and whose rename is not refused, the loop moves the file: the
    content is found under the new name, the old name is gone (unless both
    names are the same), no other file changes, and the line is
    buffered. *)
Theorem collect_renames_file (audio_dir : pystr) (rr : pystr -> bool)
    (r : task_result) (t new : pystr) (content : file_content)
    (acc : list (Z * pystr)) (fs : filesystem) :
  res_text r = Some t -> t <> [] -> res_new r = Some new -> new <> [] ->
  rr (res_orig r) = false ->
  fs !! path_join audio_dir (res_orig r) = Some content ->
  let src := path_join audio_dir (res_orig r) in
  let dst := path_join audio_dir new in
  exists fs',
    collect audio_dir rr [inr r] acc fs
    = ([Rename src dst true; Print (MsgRenamed new)], fs',
       inr (acc ++ [(res_idx r, transcript_line (res_idx r) t)]))
    /\ fs' !! dst = Some content
    /\ (src <> dst -> fs' !! src = None)
    /\ forall q, q <> src -> q <> dst -> fs' !! q = fs !! q.
Proof.
  intros Ht Hne Hn Hnn Hrr Hsrc src dst. subst src dst.
  exists (<[path_join audio_dir new := content]>
            (delete (path_join audio_dir (res_orig r)) fs)).
  split; [|split; [|split]].
  - simpl. rewrite Ht, Hn. destruct t; [done|]. destruct new; [done|]. simpl.
    unfold os_rename. by rewrite Hrr, Hsrc.
  - apply lookup_insert_eq.
  - intros Hd. rewrite lookup_insert_ne by done. apply lookup_delete_eq.
  - intros q Hq1 Hq2. rewrite lookup_insert_ne by done. by apply lookup_delete_ne.
Qed.

(** X22: a rename that fails, because [os.rename] raises or the source is
    no longer there, is reported and otherwise ignored: no file changes and
    the transcript line is buffered all the same. *)
Theorem collect_rename_failure (audio_dir : pystr) (rr : pystr -> bool)
    (r : task_result) (t new : pystr) (acc : list (Z * pystr)) (fs : filesystem) :
  res_text r = Some t -> t <> [] -> res_new r = Some new -> new <> [] ->
  rr (res_orig r) = true \/ fs !! path_join audio_dir (res_orig r) = None ->
  collect audio_dir rr [inr r] acc fs
  = ([Rename (path_join audio_dir (res_orig r)) (path_join audio_dir new) false;
      Print (MsgRenameFailed (res_orig r))],
     fs, inr (acc ++ [(res_idx r, transcript_line (res_idx r) t)])).
Proof.
  intros Ht Hne Hn Hnn Hfail.
  simpl. rewrite Ht, Hn. destruct t; [done|]. destruct new; [done|]. simpl.
  unfold os_rename. destruct (rr (res_orig r)); [reflexivity|].
  destruct Hfail as [Hrr|Hsrc]; [discriminate|by rewrite Hsrc].
Qed.

Lemma collect_skips_failed_tasks_witness :
  collect (lit "audio") (fun _ => false) (map inr [exhausted_task; exhausted_task])
    [] {[ lit "audio/b.mp3" := RawData ]}
  = ([], {[ lit "audio/b.mp3" := RawData ]}, inr []).
Proof.
  apply (collect_skips_failed_tasks (lit "audio") (fun _ => false)
           [exhausted_task; exhausted_task] [] {[ lit "audio/b.mp3" := RawData ]}).
  repeat constructor.
Defined.

Lemma collect_renames_file_witness :
  let fs : filesystem := {[ lit "audio/a.wav" := Wave speech ]} in
  exists fs',
    collect (lit "audio") (fun _ => false) [inr hello_task] [] fs
    = ([Rename (lit "audio/a.wav") (lit "audio/01 - hello world.wav") true;
        Print (MsgRenamed (lit "01 - hello world.wav"))], fs',
       inr [(0%Z, lit "01. hello world")])
    /\ fs' !! lit "audio/01 - hello world.wav" = Some (Wave speech)
    /\ (lit "audio/a.wav" <> lit "audio/01 - hello world.wav" ->
        fs' !! lit "audio/a.wav" = None)
    /\ forall q, q <> lit "audio/a.wav" -> q <> lit "audio/01 - hello world.wav" ->
         fs' !! q = fs !! q.
Proof.
  intros fs.
  apply (collect_renames_file (lit "audio") (fun _ => false) hello_task
           (lit "hello world") (lit "01 - hello world.wav") (Wave speech) [] fs);
    first [reflexivity | discriminate | apply lookup_singleton_eq].
Defined.

Lemma collect_rename_failure_witness :
  collect (lit "audio") (fun _ => false) [inr hello_task] [] ∅
  = ([Rename (lit "audio/a.wav") (lit "audio/01 - hello world.wav") false;
      Print (MsgRenameFailed (lit "a.wav"))],
     ∅, inr [(0%Z, lit "01. hello world")]).
Proof.
  apply (collect_rename_failure (lit "audio") (fun _ => false) hello_task
           (lit "hello world") (lit "01 - hello world.wav") [] ∅);
    first [reflexivity | discriminate | right; apply lookup_empty].
Defined.

(** ** From a task to its renamed file *)

Section EndToEnd.

Context {Model rec_state : Type} `{!Recognizer Model rec_state}.
Variable unicode_alnum : N -> bool.

(** X23: a task called with [idx = (i, total, ...)] whose first attempt
    returns a non-empty transcript, followed by the collection loop on its
    result: the source file, still present, is renamed inside the audio
    directory to the zero-padded one-based index, [" - "], the sanitized
    first 50 characters of the transcript and the original extension, and
    the line buffered for the transcript file is the same index, [". "] and
    the whole transcript. *)
Theorem successful_task_is_renamed (worlds : nat -> attempt_world) (i : Z)
    (total : pyobj) (more : list pyobj) (f d : pystr) (model : Model)
    (fs : filesystem) (rr : pystr -> bool) (text : pystr)
    (content : file_content) :
  returned (transcribe_audio (worlds 0%nat) (path_join d f) model fs) = Some text ->
  text <> [] -> rr f = false ->
  fs !! path_join d f = Some content ->
  mkstemp_path (worlds 0%nat) <> Some (path_join d f) ->
  let run := process_audio_file unicode_alnum worlds
               (PyTuple (PyInt i :: total :: more)) f d model fs in
  let dst := path_join d (format_02d (i + 1) ++ lit " - "
                          ++ sanitize unicode_alnum (take 50 text)
                          ++ splitext_ext f) in
  exists fs',
    collect d rr [run.1.1] [] run.1.2
    = ([Rename (path_join d f) dst true;
        Print (MsgRenamed (new_name unicode_alnum i text f))], fs',
       inr [(i, format_02d (i + 1) ++ lit ". " ++ text)])
    /\ fs' !! dst = Some content.
Proof.
  intros Hret Hne Hrr Hsrc Htmp run dst.
  pose proof (transcribe_audio_lookup_ne (worlds 0%nat) (path_join d f) model fs
                (path_join d f) Htmp) as Hkeep.
  subst run. unfold process_audio_file. simpl getitem. simpl add_one.
  cbv iota. simpl seq. simpl attempts_loop.
  unfold returned, fs_after in *.
  destruct (transcribe_audio (worlds 0%nat) (path_join d f) model fs)
    as [[tr r] fs1].
  simpl in Hret, Hkeep. subst r. destruct text as [|c text]; [done|].
  simpl truthy. cbv iota. simpl fst. simpl snd.
  exists (<[dst := content]> (delete (path_join d f) fs1)).
  split; [|apply lookup_insert_eq].
  unfold collect. cbn [res_text res_new res_idx res_orig nonempty].
  destruct (new_name unicode_alnum i (c :: text) f) as [|c' n'] eqn:En.
  { exfalso. rewrite new_name_unfold in En.
    destruct (format_02d_head (i + 1)) as (c0 & s0 & E0 & _).
    rewrite E0 in En. discriminate. }
  cbn [nonempty]. unfold os_rename. rewrite Hrr, Hkeep, Hsrc.
  rewrite <- En. reflexivity.
Qed.

End EndToEnd.

(** ** The tasks [main] submits *)

Section MainFacts.

Context {Model rec_state : Type} `{!Recognizer Model rec_state}.
Variable unicode_alnum : N -> bool.

(** X24: as the script stands, every task submitted at lines 134-140,
    with the [int] index of [enumerate], raises [TypeError] without
    calling the pipeline or touching a file, and the collection loop
    re-raises it at the first future yielded, whichever it is: no file is
    renamed and no line is buffered. *)
Theorem submitted_tasks_raise (worlds : nat -> nat -> attempt_world)
    (files : list pystr) (audio_dir : pystr) (model : Model) (fs : filesystem)
    (rr : pystr -> bool) (k : nat) (rest : list nat) :
  run_tasks unicode_alnum worlds 0 files audio_dir model fs
  = (map (fun _ => inl TypeError) files, fs)
  /\ ((k < length files)%nat ->
      collect audio_dir rr
        (omap (fun j => (run_tasks unicode_alnum worlds 0 files audio_dir model fs).1 !! j)
           (k :: rest)) [] fs
      = ([], fs, inl TypeError)).
Proof.
  split; [apply run_tasks_all_raise|].
  intros Hk. rewrite run_tasks_all_raise. cbn [fst omap list_omap].
  assert (Hlk : map (fun _ : pystr => @inl exn task_result TypeError) files !! k
                = Some (inl TypeError)).
  { apply lookup_lt_is_Some_2 in Hk as [x Hx].
    rewrite list_lookup_fmap, Hx. reflexivity. }
  rewrite Hlk. reflexivity.
Qed.

End MainFacts.

Lemma submitted_tasks_raise_witness :
  collect (lit "audio") (fun _ => false)
    (omap (fun j => (run_tasks (fun _ => false) (fun _ _ => good_world) 0
                       [lit "a.wav"; lit "b.mp3"] (lit "audio") tt ∅).1 !! j)
       [1%nat; 0%nat]) [] ∅
  = ([], ∅, inl TypeError).
Proof.
  destruct (submitted_tasks_raise (fun _ => false) (fun _ _ => good_world)
              [lit "a.wav"; lit "b.mp3"] (lit "audio") tt ∅ (fun _ => false)
              1%nat [0%nat]) as [_ H].
  apply H. simpl. lia.
Defined.

Lemma successful_task_is_renamed_witness :
  let fs : filesystem := {[ lit "audio/a.wav" := RawData ]} in
  let run := process_audio_file (fun _ => false) (fun _ => good_world)
               (PyTuple [PyInt 0; PyInt 1]) (lit "a.wav") (lit "audio") tt fs in
  exists fs',
    collect (lit "audio") (fun _ => false) [run.1.1] [] run.1.2
    = ([Rename (lit "audio/a.wav") (lit "audio/01 - h z.wav") true;
        Print (MsgRenamed (lit "01 - h z.wav"))], fs',
       inr [(0%Z, lit "01. h z")])
    /\ fs' !! lit "audio/01 - h z.wav" = Some RawData.
Proof.
  intros fs.
  assert (Hret : returned (transcribe_audio good_world
                             (path_join (lit "audio") (lit "a.wav")) tt fs)
                 = Some (lit "h z")).
  { unfold returned, transcribe_audio, convert_to_wav. simpl.
    rewrite lookup_insert_eq. reflexivity. }
  assert (Hsrc : fs !! path_join (lit "audio") (lit "a.wav") = Some RawData)
    by apply lookup_singleton_eq.
  exact (successful_task_is_renamed (fun _ => false) (fun _ => good_world) 0
           (PyInt 1) [] (lit "a.wav") (lit "audio") tt fs (fun _ => false)
           (lit "h z") RawData Hret ltac:(discriminate) eq_refl Hsrc
           ltac:(discriminate)).
Defined.

(** One full chunk followed by a single frame. *)
Lemma readframes_all_chunks_witness :
  length (repeat 1%Z CHUNK_FRAMES) = CHUNK_FRAMES.
Proof.
  destruct (readframes_all_chunks (repeat 1%Z CHUNK_FRAMES ++ [1%Z]))
    as (_ & _ & _ & H).
  apply (H 0%nat (repeat 1%Z CHUNK_FRAMES)).
  - vm_compute. reflexivity.
  - vm_compute. lia.
Defined.
